(** * Excel to CSV converter: a shallow embedding of [extract.py]

  The script walks a source folder, maps every spreadsheet it finds to a
  [.csv] path under an output folder, skips destinations that already
  exist, reads the first sheet with a cascade of engines and writes the
  table with [DataFrame.to_csv].  Counters, the failure log and the run
  log are the state the script threads through its main loop.

  The embedding keeps the script's control flow: the body of the [try]
  is a computation in a state-and-exception monad, the [except] clause is
  a handler, and the file loop is a recursion over the discovered list.
  What the script delegates to the operating system and to pandas (the
  directory listing, the decoders, directory creation, file writes) is a
  field of the record [World]. *)

From Stdlib Require Import String Ascii List Bool Arith Lia.
From stdpp Require Import gmap strings list fin_maps pretty.

(** ** Python strings *)

Module PyStr.

(** [s.rfind(c)]: index of the last occurrence, [None] for Python's -1. *)
Fixpoint rfind (s : string) (c : ascii) : option nat :=
  match s with
  | EmptyString => None
  | String a s' =>
      match rfind s' c with
      | Some i => Some (S i)
      | None => if Ascii.eqb a c then Some 0 else None
      end
  end.

(** [s[:n]] *)
Fixpoint take (n : nat) (s : string) : string :=
  match n, s with
  | S n', String a s' => String a (take n' s')
  | _, _ => EmptyString
  end.

(** [s.endswith(e)] *)
Fixpoint endswith (s e : string) : bool :=
  String.eqb s e ||
  match s with
  | EmptyString => false
  | String _ s' => endswith s' e
  end.

Definition is_upper (a : ascii) : bool :=
  let n := nat_of_ascii a in (65 <=? n) && (n <=? 90).

Definition lower_ascii (a : ascii) : ascii :=
  if is_upper a then ascii_of_nat (nat_of_ascii a + 32) else a.

(** [s.lower()] on ASCII text *)
Fixpoint lower (s : string) : string :=
  match s with
  | EmptyString => EmptyString
  | String a s' => String (lower_ascii a) (lower s')
  end.

(** No occurrence of [c] in [s]. *)
Fixpoint free_of (c : ascii) (s : string) : bool :=
  match s with
  | EmptyString => true
  | String a s' => negb (Ascii.eqb a c) && free_of c s'
  end.

End PyStr.

(** ** Exceptions

  A Python call either returns a value or raises; [Raise msg] carries
  [str(e)], the only part of an exception the script looks at. *)

Inductive Exc (A : Type) : Type :=
| Ok (a : A)
| Raise (msg : string).
Arguments Ok {A} a.
Arguments Raise {A} msg.

(** ** pathlib paths

  A path is the list of its components ([PurePath.parts]). *)

Definition Path : Type := list string.

Module PyPath.

(** [p.name] *)
Definition name (p : Path) : string := List.last p EmptyString.

(** [p.parent] for a path with no anchor; [Path('.').parent] is
    [Path('.')]. *)
Definition parent (p : Path) : Path := List.removelast p.

(** [p.stem]: the final component without its suffix.  A leading dot
    and a trailing dot do not start a suffix. *)
Definition stem (p : Path) : string :=
  let nm := name p in
  match PyStr.rfind nm "." with
  | Some i =>
      if (0 <? i) && (i <? String.length nm - 1) then PyStr.take i nm else nm
  | None => nm
  end.

(** [p / q] *)
Definition join (p q : Path) : Path := p ++ q.

(** [str(p)] on POSIX: the anchor [/], if the path has one, and the
    other parts joined by slashes; [.] for the path with no parts. *)
Definition str (p : Path) : string :=
  match p with
  | [] => "."
  | root :: rest =>
      if String.eqb root "/" then "/" +:+ String.concat "/" rest
      else String.concat "/" p
  end.

(** The message of the [ValueError] of [relative_to] (Python 3.12). *)
Definition ValueError (p other : Path) : string :=
  "'" +:+ str p +:+ "' is not in the subpath of '" +:+ str other +:+ "'".

(** [p] without the leading parts [other], if it starts with them. *)
Fixpoint strip (p other : Path) {struct other} : option Path :=
  match other with
  | [] => Some p
  | o :: other' =>
      match p with
      | x :: p' => if String.eqb x o then strip p' other' else None
      | [] => None
      end
  end.

(** [p.relative_to(other)] raises [ValueError] unless [other] is a
    prefix of [p]. *)
Definition relative_to (p other : Path) : Exc Path :=
  match strip p other with
  | Some rel => Ok rel
  | None => Raise (ValueError p other)
  end.

(** The directory [p] and its ancestors: the non-empty prefixes of [p],
    which [mkdir(parents=True, exist_ok=True)] makes sure are there. *)
Fixpoint prefixes (p : Path) : list Path :=
  match p with
  | [] => []
  | x :: p' => [x] :: map (cons x) (prefixes p')
  end.

End PyPath.

Infix "//" := PyPath.join (at level 40, left associativity).

(** ** pandas tables *)

Inductive Label : Type :=
| LStr (s : string)   (* a label read from a header row *)
| LInt (n : nat).     (* a positional label, as [header=None] produces *)

Definition Cell : Type := string.

Record DataFrame : Type := {
  columns : list Label;
  rows : list (list Cell)
}.

(** [df.empty]: some axis has length zero. *)
Definition empty (df : DataFrame) : bool :=
  match columns df, rows df with
  | _ :: _, _ :: _ => false
  | _, _ => true
  end.

(** A CSV file is kept as its list of records; quoting and encoding are
    those of the [csv] module and are not looked into. *)
Definition Csv : Type := list (list string).

Definition render_label (l : Label) : string :=
  match l with
  | LStr s => s
  | LInt n => pretty n
  end.

(** What [df.to_csv(path, index=False)] serialises: [header] keeps its
    default [True], so the column labels are the first record. *)
Definition csv_of (df : DataFrame) : Csv :=
  map render_label (columns df) :: rows df.

(** ** The world outside the script *)

Inductive Engine : Type := xlrd | openpyxl.

Inductive WriteResult : Type :=
| Written
| WriteError (msg : string) (leftover : option Csv).

(** The world as one run finds it.  The listing is taken once, at line
    50, before the first file is processed; a later run takes it anew
    and may find what this run has left below the source folder (see
    [with_tree]). *)
Record World : Type := {
  SOURCE_FOLDER : Path;
  OUTPUT_FOLDER : Path;
  LOG_FOLDER : Path;
  (** glob casing of the platform: [true] on POSIX, [false] on Windows *)
  case_sensitive : bool;
  (** every entry below [SOURCE_FOLDER] when this run scans it, files
      and directories, in the order [rglob] walks them *)
  tree : list Path;
  (** [pd.read_excel(path, sheet_name=0, engine=.., header=..)]; the
      default [header] is [Some 0] *)
  read_excel : Path -> option Engine -> option nat -> Exc DataFrame;
  (** whether [path.mkdir(parents=True, exist_ok=True)] goes through
      (permissions and the like) *)
  mkdir : Path -> Exc unit;
  (** opening and writing the destination; a failed write may leave a
      file behind *)
  write_file : Path -> Csv -> WriteResult;
  (** opening [failed_files.txt] in append mode and writing one record
      for the given source path and reason *)
  append_failed : Path -> string -> Exc unit
}.

(** ** The state of a run *)

Inductive LogRecord : Type :=
| LogFound (n : nat)
| LogSkip (name : string)
| LogProcessing (name : string)
| LogRead (engine : option Engine)
| LogSaved (name : string) (nrows : nat)
| LogFail (name : string) (msg : string)
| LogSummary (total succeeded failed skipped : nat).

Record State : Type := {
  total : nat;
  succeeded : nat;
  failed : nat;
  skipped : nat;
  (** files below [OUTPUT_FOLDER] *)
  fs : gmap Path Csv;
  (** directories that are there, as far as the run has made them or
      found them *)
  dirs : gset Path;
  (** records of [LOG_FOLDER/failed_files.txt] *)
  failed_files : list string;
  (** what [datetime.now()] returns next *)
  clock : nat;
  (** what [logger] has emitted *)
  run_log : list LogRecord
}.

Definition set_counters (t s f k : nat) (st : State) : State :=
  {| total := t; succeeded := s; failed := f; skipped := k;
     fs := fs st; dirs := dirs st; failed_files := failed_files st;
     clock := clock st; run_log := run_log st |}.

Definition set_fs (m : gmap Path Csv) (st : State) : State :=
  {| total := total st; succeeded := succeeded st; failed := failed st; skipped := skipped st;
     fs := m; dirs := dirs st; failed_files := failed_files st;
     clock := clock st; run_log := run_log st |}.

Definition set_dirs (D : gset Path) (st : State) : State :=
  {| total := total st; succeeded := succeeded st; failed := failed st; skipped := skipped st;
     fs := fs st; dirs := D; failed_files := failed_files st;
     clock := clock st; run_log := run_log st |}.

Definition set_failed_files (l : list string) (st : State) : State :=
  {| total := total st; succeeded := succeeded st; failed := failed st; skipped := skipped st;
     fs := fs st; dirs := dirs st; failed_files := l;
     clock := clock st; run_log := run_log st |}.

Definition set_clock (c : nat) (st : State) : State :=
  {| total := total st; succeeded := succeeded st; failed := failed st; skipped := skipped st;
     fs := fs st; dirs := dirs st; failed_files := failed_files st;
     clock := c; run_log := run_log st |}.

Definition set_run_log (l : list LogRecord) (st : State) : State :=
  {| total := total st; succeeded := succeeded st; failed := failed st; skipped := skipped st;
     fs := fs st; dirs := dirs st; failed_files := failed_files st;
     clock := clock st; run_log := l |}.

(** ** The state-and-exception monad *)

Definition M (A : Type) : Type := State -> State * Exc A.

#[global] Instance M_ret : MRet M := fun A a st => (st, Ok a).

#[global] Instance M_bind : MBind M := fun A B k m st =>
  match m st with
  | (st', Ok a) => k a st'
  | (st', Raise e) => (st', Raise e)
  end.

Definition raise {A : Type} (msg : string) : M A := fun st => (st, Raise msg).

Definition modify (f : State -> State) : M unit := fun st => (f st, Ok tt).

Definition gets {A : Type} (f : State -> A) : M A := fun st => (st, Ok (f st)).

(** A pure call that may raise. *)
Definition call {A : Type} (r : Exc A) : M A := fun st => (st, r).

(** [try: body except Exception as e: handler e] *)
Definition try_except {A : Type} (body : M A) (handler : string -> M A) : M A :=
  fun st =>
    match body st with
    | (st', Ok a) => (st', Ok a)
    | (st', Raise e) => handler e st'
    end.

Definition logger (r : LogRecord) : M unit :=
  modify (fun st => set_run_log (run_log st ++ [r]) st).

(** ** Discovery (lines 46-50) *)

Definition excel_extensions : list string := [".xls"; ".xlsx"; ".xlsm"; ".xlsb"].

(** [os.path.normcase] as the glob applies it to names and patterns. *)
Definition normcase (w : World) (s : string) : string :=
  if case_sensitive w then s else PyStr.lower s.

(** [fnmatch] of a name against the pattern [f'*{ext}']: the star takes
    any prefix, the rest is literal. *)
Definition glob_match (w : World) (ext name : string) : bool :=
  PyStr.endswith (normcase w name) (normcase w ext).

(** [Path(SOURCE_FOLDER).rglob(f'*{ext}')]: the entries of the tree whose
    name matches, directories included. *)
Definition rglob (w : World) (ext : string) : list Path :=
  List.filter (fun p => glob_match w ext (PyPath.name p)) (tree w).

(** [excel_files] after the loop over [excel_extensions]. *)
Definition discover (w : World) : list Path :=
  flat_map (rglob w) excel_extensions.

(** ** Processing one file (lines 55-112) *)

Inductive Outcome : Type :=
| Succeeded (nrows : nat)
| Failed (reason : string)
| Skipped.

Definition NoData : string := "No data could be read from file".

Definition engines_to_try : list (option Engine) := [Some xlrd; Some openpyxl; None].

(** [datetime.now()] *)
Definition now : M nat :=
  fun st => (set_clock (S (clock st)) st, Ok (clock st)).

Definition tab : string := String (ascii_of_nat 9) EmptyString.
Definition newline : string := String (ascii_of_nat 10) EmptyString.

(** [str(path)] *)
Definition str_path (p : Path) : string := PyPath.str p.

(** [f"{datetime.now()}\t{file_path}\t{str(e)}\n"] *)
Definition failure_line (ts : nat) (file_path : Path) (msg : string) : string :=
  pretty ts +:+ tab +:+ str_path file_path +:+ tab +:+ msg +:+ newline.

(** The loop over [engines_to_try] (lines 76-88).  [df] is the variable
    of the same name: a read that raises leaves it as it was, a read
    that returns assigns it, and only a non-empty table breaks out. *)
Fixpoint try_engines (w : World) (file_path : Path)
    (engines : list (option Engine)) (df : option DataFrame) : M (option DataFrame) :=
  match engines with
  | [] => mret df
  | engine :: rest =>
      match read_excel w file_path engine (Some 0) with
      | Ok d =>
          if negb (empty d)
          then logger (LogRead engine);; mret (Some d)
          else try_engines w file_path rest (Some d)
      | Raise _ => try_engines w file_path rest df
      end
  end.

(** Lines 91-96: one more read with [header=None], guarded by
    [df is None]. *)
Definition read_without_header (w : World) (file_path : Path)
    (df : option DataFrame) : M (option DataFrame) :=
  match df with
  | None =>
      match read_excel w file_path None None with
      | Ok d => mret (Some d)
      | Raise _ => mret None
      end
  | Some _ => mret df
  end.

(** Lines 73-96: the value of [df] when line 98 is reached. *)
Definition read_first_sheet (w : World) (file_path : Path) : M (option DataFrame) :=
  df ← try_engines w file_path engines_to_try None;
  read_without_header w file_path df.

(** [df.to_csv(output_path, index=False)] *)
Definition to_csv (w : World) (output_path : Path) (df : DataFrame) : M unit :=
  fun st =>
    match write_file w output_path (csv_of df) with
    | Written => (set_fs (<[output_path := csv_of df]> (fs st)) st, Ok tt)
    | WriteError msg None => (st, Raise msg)
    | WriteError msg (Some c) => (set_fs (<[output_path := c]> (fs st)) st, Raise msg)
    end.

Definition bump_total (st : State) : State :=
  set_counters (S (total st)) (succeeded st) (failed st) (skipped st) st.
Definition bump_succeeded (st : State) : State :=
  set_counters (total st) (S (succeeded st)) (failed st) (skipped st) st.
Definition bump_failed (st : State) : State :=
  set_counters (total st) (succeeded st) (S (failed st)) (skipped st) st.
Definition bump_skipped (st : State) : State :=
  set_counters (total st) (succeeded st) (failed st) (S (skipped st)) st.

(** Lines 60-61. *)
Definition output_path_of (w : World) (file_path : Path) : Exc Path :=
  match PyPath.relative_to file_path (SOURCE_FOLDER w) with
  | Ok relative_path =>
      Ok (OUTPUT_FOLDER w // PyPath.parent relative_path
            // [PyPath.stem file_path +:+ ".csv"])
  | Raise e => Raise e
  end.

(** Something is at [p], a file or a directory: [Path(p).exists()]. *)
Definition present (m : gmap Path Csv) (D : gset Path) (p : Path) : bool :=
  match m !! p with
  | Some _ => true
  | None => bool_decide (p ∈ D)
  end.

(** [output_path.parent.mkdir(parents=True, exist_ok=True)] (line 62):
    when it goes through, the directory and its ancestors are there. *)
Definition make_dirs (w : World) (dir : Path) : M unit :=
  fun st =>
    match mkdir w dir with
    | Ok _ => (set_dirs (dirs st ∪ list_to_set (PyPath.prefixes dir)) st, Ok tt)
    | Raise e => (st, Raise e)
    end.

(** The body of the [try] (lines 59-104).  The value returned is the
    outcome the body has just counted. *)
Definition try_body (w : World) (file_path : Path) : M Outcome :=
  output_path ← call (output_path_of w file_path);
  make_dirs w (PyPath.parent output_path);;
  existing ← gets (fun st => present (fs st) (dirs st) output_path);
  match existing with
  | true =>
      logger (LogSkip (PyPath.name file_path));;
      modify bump_skipped;;
      mret Skipped
  | false =>
      logger (LogProcessing (PyPath.name file_path));;
      df ← read_first_sheet w file_path;
      match df with
      | Some d =>
          if negb (empty d)
          then
            to_csv w output_path d;;
            logger (LogSaved (PyPath.name output_path) (length (rows d)));;
            modify bump_succeeded;;
            mret (Succeeded (length (rows d)))
          else raise NoData
      | None => raise NoData
      end
  end.

(** The [except Exception as e] clause (lines 106-112). *)
Definition on_exception (w : World) (file_path : Path) (e : string) : M Outcome :=
  logger (LogFail (PyPath.name file_path) e);;
  modify bump_failed;;
  call (append_failed w file_path e);;
  ts ← now;
  modify (fun st => set_failed_files (failed_files st ++ [failure_line ts file_path e]) st);;
  mret (Failed e).

(** One iteration of the loop over [excel_files]. *)
Definition process_file (w : World) (file_path : Path) : M Outcome :=
  modify bump_total;;
  try_except (try_body w file_path) (on_exception w file_path).

(** The loop over [excel_files]; an exception that leaves an iteration
    leaves the loop. *)
Fixpoint process_files (w : World) (excel_files : list Path) : M (list Outcome) :=
  match excel_files with
  | [] => mret []
  | file_path :: rest =>
      o ← process_file w file_path;
      os ← process_files w rest;
      mret (o :: os)
  end.

(** [convert_excel_to_csv()] *)
Definition convert_excel_to_csv (w : World) : M (list Outcome) :=
  modify (set_counters 0 0 0 0);;
  let excel_files := discover w in
  logger (LogFound (length excel_files));;
  os ← process_files w excel_files;
  st ← gets (fun st => st);
  logger (LogSummary (total st) (succeeded st) (failed st) (skipped st));;
  mret os.

(** ** Views used to state the properties *)

(** The value [df] holds after the engine loop, without the logging. *)
Fixpoint engines_df (w : World) (file_path : Path)
    (engines : list (option Engine)) (df : option DataFrame) : option DataFrame :=
  match engines with
  | [] => df
  | engine :: rest =>
      match read_excel w file_path engine (Some 0) with
      | Ok d => if negb (empty d) then Some d else engines_df w file_path rest (Some d)
      | Raise _ => engines_df w file_path rest df
      end
  end.

(** What the engine loop logs. *)
Fixpoint engines_log (w : World) (file_path : Path)
    (engines : list (option Engine)) : list LogRecord :=
  match engines with
  | [] => []
  | engine :: rest =>
      match read_excel w file_path engine (Some 0) with
      | Ok d => if negb (empty d) then [LogRead engine] else engines_log w file_path rest
      | Raise _ => engines_log w file_path rest
      end
  end.

(** The value [df] holds at line 98. *)
Definition read_df (w : World) (file_path : Path) : option DataFrame :=
  match engines_df w file_path engines_to_try None with
  | None =>
      match read_excel w file_path None None with
      | Ok d => Some d
      | Raise _ => None
      end
  | Some d => Some d
  end.

(** What the read with [header=None] would leave in [df]. *)
Definition final_attempt (w : World) (file_path : Path) : option DataFrame :=
  match read_excel w file_path None None with
  | Ok d => Some d
  | Raise _ => None
  end.

(** A strategy of the cascade fails: it raises or returns an empty table. *)
Definition fails_or_empty (r : Exc DataFrame) : Prop :=
  match r with
  | Ok d => empty d = true
  | Raise _ => True
  end.

Definition raises {A : Type} (r : Exc A) : Prop :=
  match r with
  | Ok _ => False
  | Raise _ => True
  end.

Definition all_strategies_fail (w : World) (file_path : Path) : Prop :=
  forall e, In e engines_to_try -> fails_or_empty (read_excel w file_path e (Some 0)).

Definition all_strategies_raise (w : World) (file_path : Path) : Prop :=
  forall e, In e engines_to_try -> raises (read_excel w file_path e (Some 0)).

(** No strategy, the read with [header=None] included, gives a table
    with data. *)
Definition no_usable_table (w : World) (file_path : Path) : Prop :=
  all_strategies_fail w file_path /\
  fails_or_empty (read_excel w file_path None None).

Definition is_succeeded (o : Outcome) : bool :=
  match o with Succeeded _ => true | _ => false end.

Definition is_failed (o : Outcome) : bool :=
  match o with Failed _ => true | _ => false end.

Definition is_skipped (o : Outcome) : bool :=
  match o with Skipped => true | _ => false end.

Definition tally (p : Outcome -> bool) (os : list Outcome) : nat :=
  length (List.filter p os).

(** What one iteration does, as a function of the files and directories
    present: the destination is there already, a table is written, or
    the iteration fails with a reason (a failed write may leave a file
    behind). *)
Inductive Verdict : Type :=
| VSkip (d : Path)
| VWrite (d : Path) (df : DataFrame)
| VFail (reason : string) (leftover : option (Path * Csv)).

Definition verdict (w : World) (file_path : Path) (m : gmap Path Csv)
    (D : gset Path) : Verdict :=
  match output_path_of w file_path with
  | Raise e => VFail e None
  | Ok d =>
      match mkdir w (PyPath.parent d) with
      | Raise e => VFail e None
      | Ok _ =>
          match present m D d with
          | true => VSkip d
          | false =>
              match read_df w file_path with
              | Some df =>
                  if negb (empty df)
                  then match write_file w d (csv_of df) with
                       | Written => VWrite d df
                       | WriteError msg lo => VFail msg (option_map (pair d) lo)
                       end
                  else VFail NoData None
              | None => VFail NoData None
              end
          end
      end
  end.

(** The directories present after an iteration that starts with [D]. *)
Definition dirs_after (w : World) (file_path : Path) (D : gset Path) : gset Path :=
  match output_path_of w file_path with
  | Raise _ => D
  | Ok d =>
      match mkdir w (PyPath.parent d) with
      | Raise _ => D
      | Ok _ => D ∪ list_to_set (PyPath.prefixes (PyPath.parent d))
      end
  end.

(** The files present after an iteration with the given verdict. *)
Definition fs_after (v : Verdict) (m : gmap Path Csv) : gmap Path Csv :=
  match v with
  | VSkip _ => m
  | VWrite d df => <[d := csv_of df]> m
  | VFail _ (Some (d, c)) => <[d := c]> m
  | VFail _ None => m
  end.

Definition balanced (st : State) : Prop :=
  total st = succeeded st + failed st + skipped st.

(** The counter of outcome [o], and no other, went up by one. *)
Definition recorded (o : Outcome) (st st' : State) : Prop :=
  match o with
  | Succeeded _ =>
      succeeded st' = S (succeeded st) /\ failed st' = failed st /\
      skipped st' = skipped st
  | Failed _ =>
      succeeded st' = succeeded st /\ failed st' = S (failed st) /\
      skipped st' = skipped st
  | Skipped =>
      succeeded st' = succeeded st /\ failed st' = failed st /\
      skipped st' = S (skipped st)
  end.

(** How the counters and the failure log move in one iteration, by
    verdict.  [r] is what the iteration returns or raises. *)
Definition ledger_step (w : World) (f : Path) (st st' : State)
    (r : Exc Outcome) : Prop :=
  match verdict w f (fs st) (dirs st) with
  | VSkip _ =>
      r = Ok Skipped /\ succeeded st' = succeeded st /\ failed st' = failed st /\
      skipped st' = S (skipped st) /\ failed_files st' = failed_files st
  | VWrite _ df =>
      r = Ok (Succeeded (length (rows df))) /\ succeeded st' = S (succeeded st) /\
      failed st' = failed st /\ skipped st' = skipped st /\
      failed_files st' = failed_files st
  | VFail e _ =>
      succeeded st' = succeeded st /\ failed st' = S (failed st) /\
      skipped st' = skipped st /\
      match append_failed w f e with
      | Ok _ =>
          r = Ok (Failed e) /\
          failed_files st' = failed_files st ++ [failure_line (clock st) f e]
      | Raise e' => r = Raise e' /\ failed_files st' = failed_files st
      end
  end.

(** The labels pandas gives a table read with [header=None]: the
    positions of the columns. *)
Definition positional_labels (df : DataFrame) : Prop :=
  columns df = map LInt (seq 0 (length (columns df))).


(** The world [w] as a later run finds it, with the listing [entries]
    that its scan takes. *)
Definition with_tree (w : World) (entries : list Path) : World :=
  {| SOURCE_FOLDER := SOURCE_FOLDER w; OUTPUT_FOLDER := OUTPUT_FOLDER w;
     LOG_FOLDER := LOG_FOLDER w; case_sensitive := case_sensitive w;
     tree := entries; read_excel := read_excel w; mkdir := mkdir w;
     write_file := write_file w; append_failed := append_failed w |}.

(** How the outcome of a file in a second run relates to its outcome in
    the first: skipped, or failed again for the same reason. *)
Definition rerun (o1 o2 : Outcome) : Prop :=
  match o1 with
  | Failed r => o2 = Skipped \/ o2 = Failed r
  | _ => o2 = Skipped
  end.

(** ** Statements the script does not satisfy

    Each is refuted below on one of the example worlds. *)

(** The claim that a cascade of failures, of either kind, ends in the
    read with [header=None]. *)
Definition final_attempt_after_failure (w : World) (file_path : Path) : Prop :=
  all_strategies_fail w file_path ->
  forall st, snd (read_first_sheet w file_path st) = Ok (final_attempt w file_path).


(** The claim that destinations never collide. *)
Definition destinations_injective (w : World) : Prop :=
  forall f1 f2 : Path,
    In f1 (discover w) -> In f2 (discover w) -> f1 <> f2 ->
    output_path_of w f1 <> output_path_of w f2.

(** The claim that discovery compares extensions without regard to case. *)
Definition discovers_ignoring_case (w : World) : Prop :=
  forall p : Path,
    In p (discover w) <->
    In p (tree w) /\
    exists ext, In ext excel_extensions /\
                PyStr.endswith (PyStr.lower (PyPath.name p)) ext = true.

(** The claim that every failed conversion leaves its record in the
    failure log. *)
Definition failure_always_logged (w : World) (file_path : Path) : Prop :=
  forall st e,
    snd (try_body w file_path (bump_total st)) = Raise e ->
    snd (process_file w file_path st) = Ok (Failed e) /\
    exists line,
      failed_files (fst (process_file w file_path st)) = failed_files st ++ [line].

(** The claim that a table read with [header=None] is written without a
    header record. *)
Definition headerless_table_written_raw (w : World) (file_path : Path) : Prop :=
  forall st d df,
    all_strategies_raise w file_path ->
    read_excel w file_path None None = Ok df ->
    snd (process_file w file_path st) = Ok (Succeeded (length (rows df))) ->
    output_path_of w file_path = Ok d ->
    fs (fst (process_file w file_path st)) !! d = Some (rows df).

(** The claim that a run always gets through every discovered file. *)
Definition every_error_is_recorded (w : World) : Prop :=
  forall st, exists outs,
    snd (convert_excel_to_csv w st) = Ok outs /\
    length outs = length (discover w).


(** ** Worlds and states for the examples *)

Definition quiet_world (cs : bool) (entries : list Path)
    (reader : Path -> option Engine -> option nat -> Exc DataFrame) : World :=
  {| SOURCE_FOLDER := ["sourceRoot"]; OUTPUT_FOLDER := ["outputRoot"];
     LOG_FOLDER := ["logRoot"]; case_sensitive := cs; tree := entries;
     read_excel := reader; mkdir := fun _ => Ok tt;
     write_file := fun _ _ => Written; append_failed := fun _ _ => Ok tt |}.

Definition fresh : State :=
  {| total := 0; succeeded := 0; failed := 0; skipped := 0; fs := ∅;
     dirs := ∅; failed_files := []; clock := 0; run_log := [] |}.

Definition small_table : DataFrame :=
  {| columns := [LStr "id"; LStr "name"]; rows := [["1"; "ann"]; ["2"; "bob"]] |}.

(** The scenario of a readable and a corrupt workbook. *)
Definition scenario_reader : Path -> option Engine -> option nat -> Exc DataFrame :=
  fun p engine _ =>
    if String.eqb (PyPath.name p) "q1.xlsx"
    then match engine with
         | Some xlrd => Raise "Excel xlsx file; not supported"
         | _ => Ok small_table
         end
    else Raise "file is not a spreadsheet".

Definition scenario_tree : list Path :=
  [["sourceRoot"; "reports"; "corrupt.xls"]; ["sourceRoot"; "reports"; "q1.xlsx"]].

Definition w_scenario : World := quiet_world true scenario_tree scenario_reader.

(** The same scenario with a failure log that cannot be written. *)
Definition w_log_unwritable : World :=
  {| SOURCE_FOLDER := ["sourceRoot"]; OUTPUT_FOLDER := ["outputRoot"];
     LOG_FOLDER := ["logRoot"]; case_sensitive := true; tree := scenario_tree;
     read_excel := scenario_reader; mkdir := fun _ => Ok tt;
     write_file := fun _ _ => Written;
     append_failed := fun _ _ => Raise "No space left on device" |}.

(** Two spreadsheets that differ only in their extension. *)
Definition w_twins : World :=
  quiet_world true [["sourceRoot"; "a.xls"]; ["sourceRoot"; "a.xlsx"]]
    (fun _ _ _ => Ok small_table).


(** A sheet whose only row is taken for the header: every engine returns
    a table with labels and no rows; read with [header=None] the row is
    data under positional labels. *)
Definition header_only : DataFrame :=
  {| columns := [LStr "id"; LStr "name"]; rows := [] |}.

Definition header_as_data : DataFrame :=
  {| columns := [LInt 0; LInt 1]; rows := [["id"; "name"]] |}.

Definition w_header_only : World :=
  quiet_world true [["sourceRoot"; "one_row.xlsx"]]
    (fun _ _ header =>
       match header with
       | Some _ => Ok header_only
       | None => Ok header_as_data
       end).

(** A file no engine can open, but which reads with [header=None]. *)
Definition w_headerless : World :=
  quiet_world true [["sourceRoot"; "raw.xlsx"]]
    (fun _ _ header =>
       match header with
       | Some _ => Raise "no valid header"
       | None => Ok header_as_data
       end).

(** A POSIX tree with a workbook whose extension is in upper case. *)
Definition w_upper_case : World :=
  quiet_world true [["sourceRoot"; "REPORT.XLS"]] (fun _ _ _ => Ok small_table).

(** ** Further worlds and states *)

(** The world [w] with other decoders and another file writer. *)
Definition with_pandas (w : World)
    (reader : Path -> option Engine -> option nat -> Exc DataFrame)
    (writer : Path -> Csv -> WriteResult) : World :=
  {| SOURCE_FOLDER := SOURCE_FOLDER w; OUTPUT_FOLDER := OUTPUT_FOLDER w;
     LOG_FOLDER := LOG_FOLDER w; case_sensitive := case_sensitive w;
     tree := tree w; read_excel := reader; mkdir := mkdir w;
     write_file := writer; append_failed := append_failed w |}.

(** The scenario with an output folder in which no directory can be made. *)
Definition w_mkdir_denied : World :=
  {| SOURCE_FOLDER := ["sourceRoot"]; OUTPUT_FOLDER := ["outputRoot"];
     LOG_FOLDER := ["logRoot"]; case_sensitive := true; tree := scenario_tree;
     read_excel := scenario_reader;
     mkdir := fun _ => Raise "Permission denied";
     write_file := fun _ _ => Written; append_failed := fun _ _ => Ok tt |}.

(** The scenario with an output folder in which no file can be written. *)
Definition w_write_fails : World :=
  {| SOURCE_FOLDER := ["sourceRoot"]; OUTPUT_FOLDER := ["outputRoot"];
     LOG_FOLDER := ["logRoot"]; case_sensitive := true; tree := scenario_tree;
     read_excel := scenario_reader; mkdir := fun _ => Ok tt;
     write_file := fun _ _ => WriteError "No space left on device" None;
     append_failed := fun _ _ => Ok tt |}.

(** A state in which [q1.csv] is there already, with counters and a
    failure log left over. *)
Definition seeded : State :=
  {| total := 7; succeeded := 3; failed := 2; skipped := 2;
     fs := {[ ["outputRoot"; "reports"; "q1.csv"] := [["kept"]] ]};
     dirs := {[ ["outputRoot"]; ["outputRoot"; "reports"] ]};
     failed_files := ["earlier record"]; clock := 40; run_log := [] |}.

(** The position in [excel_extensions] of the pattern a name matches. *)
Definition matches_at (w : World) (k : nat) (p : Path) : Prop :=
  exists ext, excel_extensions !! k = Some ext /\
              glob_match w ext (PyPath.name p) = true.



(** ** Proof automation *)

Ltac unfold_script :=
  unfold process_file, try_except, try_body, on_exception, to_csv, make_dirs,
    read_first_sheet, read_without_header, now, logger, call, gets, modify, raise,
    mbind, M_bind, mret, M_ret.

(** * Properties *)

(** ** Strings and paths *)

Module PathFacts.

Lemma rfind_app_dot (s t : string) :
  PyStr.free_of "." t = true ->
  PyStr.rfind (s +:+ String "." t) "." = Some (String.length s).
Proof.
  intros Ht.
  assert (Hnone : PyStr.rfind t "." = None).
  { induction t as [|a t IH]; simpl in *; [reflexivity|].
    apply andb_true_iff in Ht as [Ha Ht]. rewrite (IH Ht).
    destruct (Ascii.eqb a "."); [discriminate | reflexivity]. }
  induction s as [|a s IH]; simpl.
  - now rewrite Hnone.
  - now rewrite IH.
Qed.

Lemma take_app (s t : string) : PyStr.take (String.length s) (s +:+ t) = s.
Proof. induction s as [|a s IH]; simpl; [now destruct t | now rewrite IH]. Qed.

Lemma length_app (s t : string) :
  String.length (s +:+ t) = String.length s + String.length t.
Proof. induction s as [|a s IH]; simpl; [reflexivity | now rewrite IH]. Qed.

Lemma name_last (p : Path) (x : string) : PyPath.name (p ++ [x]) = x.
Proof. unfold PyPath.name. apply last_last. Qed.

Lemma parent_last (p : Path) (x : string) : PyPath.parent (p ++ [x]) = p.
Proof. unfold PyPath.parent. apply removelast_last. Qed.

Lemma stem_last (p : Path) (x : string) : PyPath.stem (p ++ [x]) = PyPath.stem [x].
Proof. unfold PyPath.stem. now rewrite name_last. Qed.

(** The stem of [base + "." + t] is [base] when [base] is not empty and
    [t] is a non-empty extension without a dot. *)
Lemma stem_suffix (base t : string) :
  base <> EmptyString -> t <> EmptyString -> PyStr.free_of "." t = true ->
  PyPath.stem [base +:+ String "." t] = base.
Proof.
  intros Hb Ht Hfree. unfold PyPath.stem, PyPath.name. simpl.
  rewrite rfind_app_dot by assumption.
  rewrite length_app. simpl.
  assert (0 < String.length base) by (destruct base; [congruence | simpl; lia]).
  assert (0 < String.length t) by (destruct t; [congruence | simpl; lia]).
  replace (0 <? String.length base) with true by (symmetry; apply Nat.ltb_lt; lia).
  replace (String.length base <? String.length base + S (String.length t) - 1)
    with true by (symmetry; apply Nat.ltb_lt; lia).
  simpl. apply take_app.
Qed.

Lemma strip_app (root rel : Path) : PyPath.strip (root ++ rel) root = Some rel.
Proof.
  induction root as [|o root IH]; simpl; [reflexivity|].
  now rewrite String.eqb_refl.
Qed.

Lemma strip_inv (p root rel : Path) :
  PyPath.strip p root = Some rel -> p = root ++ rel.
Proof.
  revert p. induction root as [|o root IH]; intros p H; simpl in *.
  - congruence.
  - destruct p as [|x p]; [discriminate|].
    destruct (String.eqb x o) eqn:E; [|discriminate].
    apply String.eqb_eq in E. subst. f_equal. now apply IH.
Qed.

Lemma relative_to_app (root rel : Path) : PyPath.relative_to (root ++ rel) root = Ok rel.
Proof. unfold PyPath.relative_to. now rewrite strip_app. Qed.

Lemma relative_to_inv (p root rel : Path) :
  PyPath.relative_to p root = Ok rel -> p = root ++ rel.
Proof.
  unfold PyPath.relative_to.
  destruct (PyPath.strip p root) as [r|] eqn:E; [|discriminate].
  intros [= <-]. now apply strip_inv.
Qed.

Lemma append_inj_r (s t u : string) : s +:+ u = t +:+ u -> s = t.
Proof.
  intros H.
  assert (Hlen : String.length s = String.length t).
  { apply (f_equal String.length) in H. rewrite !length_app in H. lia. }
  revert t H Hlen. induction s as [|a s IH]; intros [|b t] H Hlen; simpl in *;
    try discriminate; [reflexivity|].
  injection H as -> H. f_equal. apply IH; [assumption | lia].
Qed.

(** [str] of an absolute and of a relative path. *)
Example str_examples :
  PyPath.str ["/"; "tmp"; "in"; "a.xls"] = "/tmp/in/a.xls" /\
  PyPath.str ["sourceRoot"; "reports"; "q1.xlsx"] = "sourceRoot/reports/q1.xlsx" /\
  PyPath.str [] = ".".
Proof. repeat split. Qed.

End PathFacts.

(** ** The path mapper *)

Lemma output_path_of_rel (w : World) (dirs : Path) (nm : string) :
  output_path_of w (SOURCE_FOLDER w // dirs // [nm])
  = Ok (OUTPUT_FOLDER w // dirs // [PyPath.stem [nm] +:+ ".csv"]).
Proof.
  unfold output_path_of, PyPath.join.
  rewrite <- app_assoc, PathFacts.relative_to_app.
  rewrite PathFacts.parent_last.
  now rewrite app_assoc, PathFacts.stem_last.
Qed.

Lemma excel_extension_shape (ext : string) :
  In ext excel_extensions ->
  exists t, ext = String "." t /\ t <> EmptyString /\ PyStr.free_of "." t = true.
Proof.
  simpl. intros [<-|[<-|[<-|[<-|[]]]]]; eexists; (split; [reflexivity|]);
    (split; [discriminate | reflexivity]).
Qed.

(** C9. A source file at [SOURCE_FOLDER/dirs/base.ext], with [ext] one of
    the spreadsheet extensions, is mapped to [OUTPUT_FOLDER/dirs/base.csv]:
    the relative directory is kept and the extension is replaced. *)
Theorem path_fidelity (w : World) (dirs : Path) (base ext : string) :
  base <> EmptyString -> In ext excel_extensions ->
  output_path_of w (SOURCE_FOLDER w // dirs // [base +:+ ext])
  = Ok (OUTPUT_FOLDER w // dirs // [base +:+ ".csv"]).
Proof.
  intros Hbase Hext.
  destruct (excel_extension_shape ext Hext) as (t & -> & Ht & Hfree).
  rewrite output_path_of_rel.
  now rewrite PathFacts.stem_suffix.
Qed.

Lemma path_fidelity_witness :
  "c"%string <> EmptyString /\ In ".xlsx"%string excel_extensions /\
  output_path_of w_twins ["sourceRoot"; "a"; "b"; "c.xlsx"]
  = Ok ["outputRoot"; "a"; "b"; "c.csv"].
Proof.
  split; [discriminate|]. split; [simpl; tauto|].
  apply (path_fidelity w_twins ["a"; "b"] "c" ".xlsx"); [discriminate | simpl; tauto].
Defined.

(** Two files below the source folder have the same destination exactly
    when they lie in the same directory and have the same stem. *)
Lemma same_destination_iff (w : World) (dirs1 dirs2 : Path) (n1 n2 : string) :
  output_path_of w (SOURCE_FOLDER w // dirs1 // [n1])
  = output_path_of w (SOURCE_FOLDER w // dirs2 // [n2])
  <-> dirs1 = dirs2 /\ PyPath.stem [n1] = PyPath.stem [n2].
Proof.
  rewrite !output_path_of_rel. unfold PyPath.join. split.
  - intros H. injection H as H.
    rewrite <- !app_assoc in H. apply app_inv_head in H.
    apply app_inj_tail in H as [Hd Hs]. split; [assumption|].
    now apply PathFacts.append_inj_r in Hs.
  - intros [-> ->]. reflexivity.
Qed.

(** ** One iteration of the file loop *)

Lemma try_engines_run (w : World) (f : Path) (es : list (option Engine))
    (df : option DataFrame) (st : State) :
  try_engines w f es df st
  = (set_run_log (run_log st ++ engines_log w f es) st, Ok (engines_df w f es df)).
Proof.
  revert df. induction es as [|e es IH]; intros df; cbn.
  - destruct st; unfold set_run_log; simpl. now rewrite app_nil_r.
  - destruct (read_excel w f e (Some 0)) as [d|msg]; [|apply IH].
    destruct (empty d); simpl; [apply IH | reflexivity].
Qed.

#[local] Arguments try_engines : simpl never.
#[local] Arguments engines_df : simpl never.
#[local] Arguments engines_log : simpl never.

(** *** Files and directories *)

Lemma prefixes_length (p q : Path) :
  In q (PyPath.prefixes p) -> length q <= length p.
Proof.
  revert q. induction p as [|x p IH]; intros q; simpl; [tauto|].
  intros [<-|H]; [simpl; lia|].
  apply in_map_iff in H as (q' & <- & Hq'). specialize (IH q' Hq'). simpl. lia.
Qed.

Lemma prefixes_self (p : Path) : p <> [] -> In p (PyPath.prefixes p).
Proof.
  induction p as [|x p IH]; [congruence|]. intros _. simpl.
  destruct p as [|y p]; [now left|]. right.
  apply in_map. apply IH. discriminate.
Qed.

Lemma output_path_of_last (w : World) (f d : Path) :
  output_path_of w f = Ok d ->
  d = PyPath.parent d ++ [PyPath.stem f +:+ ".csv"].
Proof.
  unfold output_path_of.
  destruct (PyPath.relative_to f (SOURCE_FOLDER w)) as [rel|e]; [|discriminate].
  intros [= <-]. unfold PyPath.join, PyPath.parent. now rewrite removelast_last.
Qed.

(** A destination is not one of the directories made for it. *)
Lemma destination_not_made (w : World) (f d : Path) :
  output_path_of w f = Ok d ->
  d ∉ (list_to_set (PyPath.prefixes (PyPath.parent d)) : gset Path).
Proof.
  intros Hd Hin. apply elem_of_list_to_set, list_elem_of_In, prefixes_length in Hin.
  apply output_path_of_last in Hd. rewrite Hd in Hin at 1.
  rewrite length_app in Hin. simpl in Hin. lia.
Qed.

Lemma present_made (w : World) (f d : Path) (m : gmap Path Csv) (D : gset Path) :
  output_path_of w f = Ok d ->
  present m (D ∪ list_to_set (PyPath.prefixes (PyPath.parent d))) d = present m D d.
Proof.
  intros Hd. unfold present. destruct (m !! d); [reflexivity|].
  apply bool_decide_ext. rewrite elem_of_union.
  pose proof (destination_not_made w f d Hd). tauto.
Qed.

Lemma present_true (m : gmap Path Csv) (D : gset Path) (p : Path) :
  present m D p = true <-> is_Some (m !! p) \/ p ∈ D.
Proof.
  unfold present. destruct (m !! p) as [c|].
  - split; [eauto | reflexivity].
  - rewrite bool_decide_eq_true. split; [tauto|].
    intros [[c Hc]|H]; [discriminate | exact H].
Qed.

Lemma present_false (m : gmap Path Csv) (D : gset Path) (p : Path) :
  present m D p = false <-> m !! p = None /\ p ∉ D.
Proof.
  unfold present. destruct (m !! p) as [c|].
  - split; [discriminate | intros [? _]; discriminate].
  - rewrite bool_decide_eq_false. tauto.
Qed.

Lemma present_mono (m m2 : gmap Path Csv) (D D2 : gset Path) (p : Path) :
  m ⊆ m2 -> D ⊆ D2 -> present m D p = true -> present m2 D2 p = true.
Proof.
  intros Hm HD H. apply present_true in H. apply present_true.
  destruct H as [[c Hc]|H]; [left | right; set_solver].
  exists c. eapply lookup_weaken; eauto.
Qed.

(** *** What an iteration does *)

Lemma process_file_spec (w : World) (f : Path) (st : State) :
  let st' := fst (process_file w f st) in
  fs st' = fs_after (verdict w f (fs st) (dirs st)) (fs st) /\
  total st' = S (total st) /\
  ledger_step w f st st' (snd (process_file w f st)).
Proof.
  unfold ledger_step, verdict, read_df. unfold_script. simpl.
  destruct (output_path_of w f) as [d|e] eqn:Hout; simpl.
  2: { destruct (append_failed w f e); simpl; auto 10. }
  destruct (mkdir w (PyPath.parent d)) as [[]|e]; simpl.
  2: { destruct (append_failed w f e); simpl; auto 10. }
  rewrite (present_made w f d _ _ Hout).
  destruct (present (fs st) (dirs st) d) eqn:Hd; simpl; [auto 10|].
  rewrite try_engines_run. simpl.
  destruct (engines_df w f engines_to_try None) as [df|]; simpl.
  - destruct (empty df); simpl.
    + destruct (append_failed w f NoData); simpl; auto 10.
    + destruct (write_file w d (csv_of df)) as [|msg [c|]]; simpl; auto 10;
        destruct (append_failed w f msg); simpl; auto 10.
  - destruct (read_excel w f None None) as [df|msg]; simpl.
    + destruct (empty df); simpl.
      * destruct (append_failed w f NoData); simpl; auto 10.
      * destruct (write_file w d (csv_of df)) as [|msg [c|]]; simpl; auto 10;
          destruct (append_failed w f msg); simpl; auto 10.
    + destruct (append_failed w f NoData); simpl; auto 10.
Qed.

(** The [try] body raises only where the verdict is a failure, with the
    reason it raises. *)
Lemma try_body_raises (w : World) (f : Path) (st : State) (e : string) :
  snd (try_body w f st) = Raise e ->
  exists lo, verdict w f (fs st) (dirs st) = VFail e lo.
Proof.
  unfold verdict, read_df. unfold_script. simpl.
  destruct (output_path_of w f) as [d|e0] eqn:Hout; simpl; [|intros [= <-]; eauto].
  destruct (mkdir w (PyPath.parent d)) as [[]|e0]; simpl; [|intros [= <-]; eauto].
  rewrite (present_made w f d _ _ Hout).
  destruct (present (fs st) (dirs st) d) eqn:Hd; simpl; [discriminate|].
  rewrite try_engines_run. simpl.
  destruct (engines_df w f engines_to_try None) as [df|]; simpl.
  - destruct (empty df); simpl; [intros [= <-]; eauto|].
    destruct (write_file w d (csv_of df)) as [|msg [c|]]; simpl;
      [discriminate | intros [= <-]; eauto | intros [= <-]; eauto].
  - destruct (read_excel w f None None) as [df|msg]; simpl; [|intros [= <-]; eauto].
    destruct (empty df); simpl; [intros [= <-]; eauto|].
    destruct (write_file w d (csv_of df)) as [|msg [c|]]; simpl;
      [discriminate | intros [= <-]; eauto | intros [= <-]; eauto].
Qed.

(** ** The reader cascade *)

Lemma read_first_sheet_value (w : World) (f : Path) (st : State) :
  snd (read_first_sheet w f st) = Ok (read_df w f).
Proof.
  unfold read_first_sheet, read_without_header, read_df, mbind, M_bind, mret, M_ret.
  rewrite try_engines_run.
  destruct (engines_df w f engines_to_try None); [reflexivity|].
  now destruct (read_excel w f None None).
Qed.

Lemma engines_df_cons (w : World) (f : Path) (e : option Engine)
    (es : list (option Engine)) (df : option DataFrame) :
  engines_df w f (e :: es) df
  = match read_excel w f e (Some 0) with
    | Ok d => if negb (empty d) then Some d else engines_df w f es (Some d)
    | Raise _ => engines_df w f es df
    end.
Proof. reflexivity. Qed.

(** Engines that all raise leave [df] as it was. *)
Lemma engines_df_all_raise (w : World) (f : Path) (es : list (option Engine))
    (df : option DataFrame) :
  (forall e, In e es -> raises (read_excel w f e (Some 0))) ->
  engines_df w f es df = df.
Proof.
  revert df. induction es as [|e es IH]; intros df H; [reflexivity|].
  rewrite engines_df_cons.
  pose proof (H e (or_introl eq_refl)) as He.
  destruct (read_excel w f e (Some 0)); [destruct He|].
  apply IH. intros e' He'. apply H. now right.
Qed.

(** Engines that all fail leave in [df] the last table one of them
    returned, which is empty, or leave [df] as it was when all raised. *)
Lemma engines_df_all_fail (w : World) (f : Path) (es : list (option Engine))
    (df : option DataFrame) :
  (forall e, In e es -> fails_or_empty (read_excel w f e (Some 0))) ->
  (engines_df w f es df = df /\
   forall e, In e es -> raises (read_excel w f e (Some 0)))
  \/ exists e d, In e es /\ read_excel w f e (Some 0) = Ok d /\ empty d = true /\
                 engines_df w f es df = Some d.
Proof.
  revert df. induction es as [|e es IH]; intros df H.
  - left. split; [reflexivity | intros e []].
  - rewrite engines_df_cons. pose proof (H e (or_introl eq_refl)) as He.
    assert (Hes : forall e', In e' es -> fails_or_empty (read_excel w f e' (Some 0)))
      by (intros e' He'; apply H; now right).
    destruct (read_excel w f e (Some 0)) as [d|msg] eqn:E; simpl in He.
    + rewrite He. simpl. right.
      destruct (IH (Some d) Hes) as [[Heq _]|(e' & d' & Hin & Hr & Hem & Heq)].
      * exists e, d. simpl. tauto.
      * exists e', d'. simpl. tauto.
    + destruct (IH df Hes) as [[Heq Hall]|(e' & d' & Hin & Hr & Hem & Heq)].
      * left. split; [assumption|]. intros e' [<-|He']; [now rewrite E | now apply Hall].
      * right. exists e', d'. simpl. tauto.
Qed.

(** C1 (amended). The read with [header=None] is made exactly when [df]
    is still [None], that is when every engine raised: then [df] ends as
    that read leaves it.  When the engines all fail and at least one of
    them returned a table, [df] ends as an empty table an engine returned
    and the read with [header=None] plays no part. *)
Theorem final_attempt_only_after_exceptions (w : World) (f : Path) (st : State) :
  (all_strategies_raise w f ->
   snd (read_first_sheet w f st) = Ok (final_attempt w f))
  /\
  (all_strategies_fail w f -> ~ all_strategies_raise w f ->
   exists e d, In e engines_to_try /\ read_excel w f e (Some 0) = Ok d /\
               empty d = true /\
               snd (read_first_sheet w f st) = Ok (Some d)).
Proof.
  rewrite read_first_sheet_value. unfold read_df, final_attempt. split.
  - intros H. now rewrite (engines_df_all_raise w f engines_to_try None H).
  - intros Hfail Hnot.
    destruct (engines_df_all_fail w f engines_to_try None Hfail)
      as [[_ Hall]|(e & d & Hin & Hr & Hem & Heq)].
    + now destruct Hnot.
    + exists e, d. rewrite Heq. auto.
Qed.

Lemma final_attempt_only_after_exceptions_witness :
  (all_strategies_raise w_headerless ["sourceRoot"; "raw.xlsx"] /\
   snd (read_first_sheet w_headerless ["sourceRoot"; "raw.xlsx"] fresh)
   = Ok (Some header_as_data))
  /\
  (all_strategies_fail w_header_only ["sourceRoot"; "one_row.xlsx"] /\
   ~ all_strategies_raise w_header_only ["sourceRoot"; "one_row.xlsx"] /\
   exists e d, In e engines_to_try /\
               read_excel w_header_only ["sourceRoot"; "one_row.xlsx"] e (Some 0) = Ok d /\
               empty d = true /\
               snd (read_first_sheet w_header_only ["sourceRoot"; "one_row.xlsx"] fresh)
               = Ok (Some d)).
Proof.
  assert (H1 : all_strategies_raise w_headerless ["sourceRoot"; "raw.xlsx"])
    by (intros e _; exact I).
  assert (H2 : all_strategies_fail w_header_only ["sourceRoot"; "one_row.xlsx"])
    by (intros e _; reflexivity).
  assert (H3 : ~ all_strategies_raise w_header_only ["sourceRoot"; "one_row.xlsx"])
    by (intros H; exact (H None (or_intror (or_intror (or_introl eq_refl))))).
  split.
  - split; [exact H1|].
    exact (proj1 (final_attempt_only_after_exceptions
                    w_headerless ["sourceRoot"; "raw.xlsx"] fresh) H1).
  - split; [exact H2|]. split; [exact H3|].
    exact (proj2 (final_attempt_only_after_exceptions
                    w_header_only ["sourceRoot"; "one_row.xlsx"] fresh) H2 H3).
Defined.

(** C1 (as stated) fails: with a sheet whose only row is taken for the
    header, every engine returns an empty table, [df] is not [None], and
    the read with [header=None], which would return the row, is not
    made. *)
Lemma final_attempt_skipped_after_empty_table :
  ~ final_attempt_after_failure w_header_only ["sourceRoot"; "one_row.xlsx"].
Proof.
  intros H.
  assert (Hfail : all_strategies_fail w_header_only ["sourceRoot"; "one_row.xlsx"])
    by (intros e _; reflexivity).
  specialize (H Hfail fresh). vm_compute in H. discriminate H.
Qed.

(** ** The ledger *)

Lemma process_file_recorded (w : World) (f : Path) (st : State) :
  let st' := fst (process_file w f st) in
  total st' = S (total st) /\
  match snd (process_file w f st) with
  | Ok o => recorded o st st'
  | Raise _ => recorded (Failed EmptyString) st st'
  end.
Proof.
  destruct (process_file_spec w f st) as (_ & Htot & Hstep).
  split; [exact Htot|]. unfold ledger_step in Hstep.
  destruct (verdict w f (fs st) (dirs st)) as [d|d df|e lo].
  - destruct Hstep as (-> & ? & ? & ? & _). simpl. auto.
  - destruct Hstep as (-> & ? & ? & ? & _). simpl. auto.
  - destruct Hstep as (? & ? & ? & Happ).
    destruct (append_failed w f e); destruct Happ as [-> _]; simpl; auto.
Qed.

Lemma process_file_balanced (w : World) (f : Path) (st : State) :
  balanced st -> balanced (fst (process_file w f st)).
Proof.
  unfold balanced. intros Hb.
  destruct (process_file_recorded w f st) as [Htot Hrec].
  destruct (snd (process_file w f st)) as [[n|r|]|e]; simpl in Hrec;
    destruct Hrec as (? & ? & ?); lia.
Qed.

Lemma process_files_cons (w : World) (f : Path) (rest : list Path) (st : State) :
  process_files w (f :: rest) st
  = match process_file w f st with
    | (st1, Ok o) =>
        match process_files w rest st1 with
        | (st2, Ok os) => (st2, Ok (o :: os))
        | (st2, Raise e) => (st2, Raise e)
        end
    | (st1, Raise e) => (st1, Raise e)
    end.
Proof. reflexivity. Qed.

Lemma process_files_balanced (w : World) (files : list Path) (st : State) :
  balanced st -> balanced (fst (process_files w files st)).
Proof.
  revert st. induction files as [|f rest IH]; intros st Hb; [exact Hb|].
  rewrite process_files_cons.
  pose proof (process_file_balanced w f st Hb) as H1.
  destruct (process_file w f st) as [st1 [o|e]]; simpl in *; [|exact H1].
  specialize (IH st1 H1).
  now destruct (process_files w rest st1) as [st2 [os|e]].
Qed.

Lemma process_files_tally (w : World) (files : list Path) (st : State) (outs : list Outcome) :
  snd (process_files w files st) = Ok outs ->
  let st' := fst (process_files w files st) in
  length outs = length files /\
  total st' = total st + length files /\
  succeeded st' = succeeded st + tally is_succeeded outs /\
  failed st' = failed st + tally is_failed outs /\
  skipped st' = skipped st + tally is_skipped outs.
Proof.
  revert st outs. induction files as [|f rest IH]; intros st outs.
  - simpl. intros [= <-]. unfold tally. simpl. lia.
  - rewrite process_files_cons.
    destruct (process_file_recorded w f st) as [Htot Hrec].
    destruct (process_file w f st) as [st1 [o|e]]; simpl in *; [|discriminate].
    specialize (IH st1).
    destruct (process_files w rest st1) as [st2 [os|e]]; simpl in *; [|discriminate].
    intros [= <-]. destruct (IH os eq_refl) as (Hl & Ht & Hs & Hf & Hk).
    unfold tally in *.
    destruct o as [n|r|]; simpl in *; destruct Hrec as (? & ? & ?); lia.
Qed.

(** The state in which the file loop starts and the summary it ends with
    leave the files and the counters of the loop alone. *)
Lemma convert_unfold (w : World) (st : State) :
  let start := set_run_log (run_log st ++ [LogFound (length (discover w))])
                 (set_counters 0 0 0 0 st) in
  snd (convert_excel_to_csv w st) = snd (process_files w (discover w) start) /\
  let st' := fst (convert_excel_to_csv w st) in
  let st1 := fst (process_files w (discover w) start) in
  total st' = total st1 /\ succeeded st' = succeeded st1 /\
  failed st' = failed st1 /\ skipped st' = skipped st1 /\
  fs st' = fs st1 /\ failed_files st' = failed_files st1.
Proof.
  unfold convert_excel_to_csv, logger, gets, modify, mbind, M_bind, mret, M_ret.
  simpl.
  destruct (process_files w (discover w) _) as [st1 [os|e]]; simpl; auto 10.
Qed.

(** C7. Every iteration adds one to [total] and one to exactly one of
    [succeeded], [failed], [skipped], the one of the outcome it returns
    (or [failed] when the handler itself raises); so
    [total = succeeded + failed + skipped] holds after every file, and a
    run that ends has counted one outcome for each discovered file. *)
Theorem one_outcome_per_file (w : World) (files : list Path) (st : State) :
  balanced st ->
  (forall f, In f files ->
     forall st0, let st1 := fst (process_file w f st0) in
       total st1 = S (total st0) /\
       match snd (process_file w f st0) with
       | Ok o => recorded o st0 st1
       | Raise _ => recorded (Failed EmptyString) st0 st1
       end) /\
  (forall k, balanced (fst (process_files w (List.firstn k files) st))) /\
  (forall outs, snd (process_files w files st) = Ok outs ->
     let st' := fst (process_files w files st) in
     length outs = length files /\
     total st' = total st + length files /\
     succeeded st' = succeeded st + tally is_succeeded outs /\
     failed st' = failed st + tally is_failed outs /\
     skipped st' = skipped st + tally is_skipped outs).
Proof.
  intros Hb. split; [|split].
  - intros f _ st0. apply process_file_recorded.
  - intros k. now apply process_files_balanced.
  - intros outs. apply process_files_tally.
Qed.

Lemma one_outcome_per_file_witness :
  balanced fresh /\
  balanced (fst (process_files w_scenario (discover w_scenario) fresh)) /\
  total (fst (process_files w_scenario (discover w_scenario) fresh)) = 2.
Proof.
  assert (Hb : balanced fresh) by reflexivity.
  destruct (one_outcome_per_file w_scenario (discover w_scenario) fresh Hb) as (_ & Hk & Hout).
  split; [exact Hb|]. split.
  - exact (Hk 2).
  - exact (proj1 (proj2 (Hout _ eq_refl))).
Defined.

(** The counters of a whole run balance whatever state it starts in. *)
Lemma convert_balanced (w : World) (st : State) :
  balanced (fst (convert_excel_to_csv w st)).
Proof.
  destruct (convert_unfold w st) as (_ & Ht & Hs & Hf & Hk & _).
  unfold balanced. rewrite Ht, Hs, Hf, Hk.
  apply process_files_balanced. reflexivity.
Qed.

(** ** Errors *)

(** An exception leaves an iteration only from the append to the failure
    log: the file had failed with some reason [e] and writing its record
    raised. *)
Lemma process_file_raise_inv (w : World) (f : Path) (st : State) (e' : string) :
  snd (process_file w f st) = Raise e' ->
  exists e lo, verdict w f (fs st) (dirs st) = VFail e lo /\ append_failed w f e = Raise e'.
Proof.
  intros H. destruct (process_file_spec w f st) as (_ & _ & Hstep).
  unfold ledger_step in Hstep. rewrite H in Hstep.
  destruct (verdict w f (fs st) (dirs st)) as [d|d df|e lo].
  - destruct Hstep as [? _]. discriminate.
  - destruct Hstep as [? _]. discriminate.
  - exists e, lo. split; [reflexivity|].
    destruct Hstep as (_ & _ & _ & Happ).
    destruct (append_failed w f e) as [[]|e2]; destruct Happ as [Hr _]; congruence.
Qed.

Lemma process_files_complete (w : World) (files : list Path) (st : State) :
  (forall f e, In f files -> ~ raises (append_failed w f e)) ->
  exists outs, snd (process_files w files st) = Ok outs.
Proof.
  revert st. induction files as [|f rest IH]; intros st Happ.
  - exists []. reflexivity.
  - rewrite process_files_cons.
    destruct (process_file w f st) as [st1 [o|e']] eqn:E.
    + destruct (IH st1) as [os Hos]; [intros f' e Hin; apply Happ; now right|].
      destruct (process_files w rest st1) as [st2 [os'|e]]; simpl in *; [|discriminate].
      eexists. reflexivity.
    + exfalso.
      destruct (process_file_raise_inv w f st e') as (e & lo & _ & Hr);
        [now rewrite E|].
      apply (Happ f e); [now left | now rewrite Hr].
Qed.

(** An iteration is its [try] body when the body returns. *)
Lemma process_file_passes (w : World) (f : Path) (st : State) (o : Outcome) :
  snd (try_body w f (bump_total st)) = Ok o ->
  process_file w f st = try_body w f (bump_total st).
Proof.
  unfold process_file, try_except, modify, mbind, M_bind. simpl.
  destruct (try_body w f (bump_total st)) as [s1 [o1|e]]; simpl;
    [reflexivity | discriminate].
Qed.

(** What the handler makes of an exception of the [try] body. *)
Lemma process_file_handles (w : World) (f : Path) (st : State) (e : string) :
  snd (try_body w f (bump_total st)) = Raise e ->
  let st' := fst (process_file w f st) in
  failed st' = S (failed st) /\
  match append_failed w f e with
  | Ok _ =>
      snd (process_file w f st) = Ok (Failed e) /\
      failed_files st' = failed_files st ++ [failure_line (clock st) f e]
  | Raise e' =>
      snd (process_file w f st) = Raise e' /\ failed_files st' = failed_files st
  end.
Proof.
  intros He st'.
  destruct (try_body_raises w f _ e He) as [lo Hv].
  change (fs (bump_total st)) with (fs st) in Hv.
  change (dirs (bump_total st)) with (dirs st) in Hv.
  destruct (process_file_spec w f st) as (_ & _ & Hstep).
  unfold ledger_step in Hstep. rewrite Hv in Hstep.
  destruct Hstep as (_ & Hf & _ & Hlog). split; [exact Hf|].
  destruct (append_failed w f e); exact Hlog.
Qed.

Lemma process_file_raise_body (w : World) (f : Path) (st : State) (e' : string) :
  snd (process_file w f st) = Raise e' ->
  exists e, snd (try_body w f (bump_total st)) = Raise e /\
            append_failed w f e = Raise e'.
Proof.
  intros H. destruct (snd (try_body w f (bump_total st))) as [o|e] eqn:Hb.
  - rewrite (process_file_passes w f st o Hb), Hb in H. discriminate.
  - exists e. split; [reflexivity|].
    destruct (process_file_handles w f st e Hb) as [_ Hm].
    destruct (append_failed w f e) as [[]|e2]; destruct Hm as [Hr _]; congruence.
Qed.

(** C6 (amended). Whatever the [try] body raises is caught: the handler
    counts the file as failed and, when the append to the failure log
    goes through, the iteration returns the outcome [Failed] with the
    message raised, so that the loop goes on with the next file; a body
    that returns is the whole iteration.  The run goes through every
    discovered file as long as that append succeeds.  An exception
    raised by the append is outside the [try]: it leaves the iteration
    and ends the loop. *)
Theorem errors_caught_while_log_writable (w : World) (st : State) :
  (forall f st0 e,
     snd (try_body w f (bump_total st0)) = Raise e ->
     failed (fst (process_file w f st0)) = S (failed st0) /\
     match append_failed w f e with
     | Ok _ => snd (process_file w f st0) = Ok (Failed e)
     | Raise e' => snd (process_file w f st0) = Raise e'
     end)
  /\
  (forall f st0 o,
     snd (try_body w f (bump_total st0)) = Ok o ->
     process_file w f st0 = try_body w f (bump_total st0))
  /\
  ((forall f e, In f (discover w) -> ~ raises (append_failed w f e)) ->
   exists outs, snd (convert_excel_to_csv w st) = Ok outs /\
                length outs = length (discover w))
  /\
  (forall f rest st0 e',
     snd (process_file w f st0) = Raise e' ->
     (exists e, snd (try_body w f (bump_total st0)) = Raise e /\
                append_failed w f e = Raise e') /\
     failed (fst (process_file w f st0)) = S (failed st0) /\
     process_files w (f :: rest) st0 = (fst (process_file w f st0), Raise e')).
Proof.
  split; [|split; [|split]].
  - intros f st0 e He.
    destruct (process_file_handles w f st0 e He) as [Hf Hm]. split; [exact Hf|].
    destruct (append_failed w f e); now destruct Hm.
  - intros f st0 o. apply process_file_passes.
  - intros Happ. destruct (convert_unfold w st) as (Hsnd & _).
    rewrite Hsnd.
    match goal with
    | |- context [process_files w (discover w) ?s] =>
        destruct (process_files_complete w (discover w) s Happ) as [outs Hout]
    end.
    exists outs. split; [exact Hout|].
    now destruct (process_files_tally w _ _ _ Hout) as (Hl & _).
  - intros f rest st0 e' Hr. split; [|split].
    + exact (process_file_raise_body w f st0 e' Hr).
    + destruct (process_file_recorded w f st0) as [_ Hrec].
      rewrite Hr in Hrec. now destruct Hrec as (_ & ? & _).
    + rewrite process_files_cons.
      destruct (process_file w f st0) as [st1 r]; simpl in *. now subst r.
Qed.

Lemma errors_caught_while_log_writable_witness :
  let f := ["sourceRoot"; "reports"; "corrupt.xls"] in
  snd (try_body w_scenario f (bump_total fresh)) = Raise NoData /\
  snd (process_file w_scenario f fresh) = Ok (Failed NoData) /\
  (forall f e, In f (discover w_scenario) -> ~ raises (append_failed w_scenario f e)) /\
  (exists outs, snd (convert_excel_to_csv w_scenario fresh) = Ok outs /\
                length outs = length (discover w_scenario)) /\
  snd (process_file w_log_unwritable f fresh) = Raise "No space left on device" /\
  process_files w_log_unwritable (discover w_log_unwritable) fresh
  = (fst (process_file w_log_unwritable f fresh), Raise "No space left on device").
Proof.
  intros f.
  assert (Hb : snd (try_body w_scenario f (bump_total fresh)) = Raise NoData)
    by (vm_compute; reflexivity).
  assert (H : forall f e, In f (discover w_scenario) ->
                          ~ raises (append_failed w_scenario f e))
    by (intros f0 e _ Hr; exact Hr).
  assert (Hr : snd (process_file w_log_unwritable f fresh)
               = Raise "No space left on device") by (vm_compute; reflexivity).
  destruct (errors_caught_while_log_writable w_scenario fresh) as (H1 & _ & H3 & _).
  destruct (errors_caught_while_log_writable w_log_unwritable fresh) as (_ & _ & _ & H4).
  split; [exact Hb|]. split; [exact (proj2 (H1 f fresh NoData Hb))|].
  split; [exact H|]. split; [exact (H3 H)|]. split; [exact Hr|].
  exact (proj2 (proj2 (H4 f [["sourceRoot"; "reports"; "q1.xlsx"]] fresh _ Hr))).
Defined.

(** C6 (as stated) fails: when the failure log cannot be written, the
    first failing file ends the run; the readable workbook after it is
    never processed. *)
Lemma log_failure_aborts_run : ~ every_error_is_recorded w_log_unwritable.
Proof.
  intros H. destruct (H fresh) as (outs & Hout & _).
  vm_compute in Hout. discriminate Hout.
Qed.

(** ** Failures *)

Lemma read_df_unusable (w : World) (f : Path) :
  no_usable_table w f ->
  read_df w f = None \/ exists d, read_df w f = Some d /\ empty d = true.
Proof.
  intros [Hfail Hlast]. unfold read_df.
  destruct (engines_df_all_fail w f engines_to_try None Hfail)
    as [[Heq _]|(e & d & _ & _ & Hem & Heq)]; rewrite Heq.
  - destruct (read_excel w f None None) as [d|msg]; simpl in Hlast; eauto.
  - eauto.
Qed.

Lemma verdict_no_data (w : World) (f d : Path) (m : gmap Path Csv) (D : gset Path) :
  output_path_of w f = Ok d -> ~ raises (mkdir w (PyPath.parent d)) ->
  present m D d = false -> no_usable_table w f ->
  verdict w f m D = VFail NoData None.
Proof.
  intros Hd Hmk Hm Hno. unfold verdict. rewrite Hd.
  destruct (mkdir w (PyPath.parent d)); [|now destruct Hmk].
  rewrite Hm.
  destruct (read_df_unusable w f Hno) as [->|(df & -> & ->)]; reflexivity.
Qed.

(** The [try] body raises whenever the verdict is a failure. *)
Lemma try_body_fails (w : World) (f : Path) (st : State) (e : string)
    (lo : option (Path * Csv)) :
  verdict w f (fs st) (dirs st) = VFail e lo ->
  snd (try_body w f (bump_total st)) = Raise e.
Proof.
  unfold verdict, read_df. unfold_script. simpl.
  destruct (output_path_of w f) as [d|e0] eqn:Hout; simpl; [|now intros [= <- _]].
  destruct (mkdir w (PyPath.parent d)) as [[]|e0]; simpl; [|now intros [= <- _]].
  rewrite (present_made w f d _ _ Hout).
  destruct (present (fs st) (dirs st) d) eqn:Hd; simpl; [discriminate|].
  rewrite try_engines_run. simpl.
  destruct (engines_df w f engines_to_try None) as [df|]; simpl.
  - destruct (empty df); simpl; [now intros [= <- _]|].
    destruct (write_file w d (csv_of df)) as [|msg [c|]]; simpl;
      [discriminate | now intros [= <- _] | now intros [= <- _]].
  - destruct (read_excel w f None None) as [df|msg]; simpl; [|now intros [= <- _]].
    destruct (empty df); simpl; [now intros [= <- _]|].
    destruct (write_file w d (csv_of df)) as [|msg [c|]]; simpl;
      [discriminate | now intros [= <- _] | now intros [= <- _]].
Qed.

(** C8 (amended). A file whose conversion fails, that is whose [try]
    body raises, is counted as failed; when the append to the failure
    log goes through, the outcome [Failed] is returned and one record,
    timestamp TAB source path TAB reason NEWLINE, is appended to the
    failure log; when the append raises, nothing is appended and the
    exception leaves the iteration.  When the destination is computed,
    its directory made, nothing is at the destination yet and no
    strategy, the read with [header=None] included, gives a table with
    data, the conversion fails with the reason [No data could be read
    from file] and no file is created. *)
Theorem failure_recorded (w : World) (f : Path) (st : State) :
  let st' := fst (process_file w f st) in
  (forall e, snd (try_body w f (bump_total st)) = Raise e ->
     failed st' = S (failed st) /\
     match append_failed w f e with
     | Ok _ =>
         snd (process_file w f st) = Ok (Failed e) /\
         failed_files st'
         = failed_files st ++
           [pretty (clock st) +:+
            String "009" (PyPath.str f +:+ String "009" (e +:+ String "010" EmptyString))]
     | Raise e' =>
         snd (process_file w f st) = Raise e' /\ failed_files st' = failed_files st
     end)
  /\
  (forall d, output_path_of w f = Ok d ->
     ~ raises (mkdir w (PyPath.parent d)) ->
     fs st !! d = None -> d ∉ dirs st ->
     no_usable_table w f ->
     snd (try_body w f (bump_total st)) = Raise NoData /\
     fs st' = fs st).
Proof.
  split.
  - intros e He. exact (process_file_handles w f st e He).
  - intros d Hd Hmk Hm HD Hno.
    assert (Hp : present (fs st) (dirs st) d = false) by (apply present_false; auto).
    pose proof (verdict_no_data w f d (fs st) (dirs st) Hd Hmk Hp Hno) as Hv.
    split; [exact (try_body_fails w f st NoData None Hv)|].
    destruct (process_file_spec w f st) as (Hfs & _ & _).
    now rewrite Hv in Hfs.
Qed.

Lemma failure_recorded_witness :
  let f := ["sourceRoot"; "reports"; "corrupt.xls"] in
  let st' := fst (process_file w_scenario f fresh) in
  (snd (try_body w_scenario f (bump_total fresh)) = Raise NoData /\
   fs st' = fs fresh) /\
  failed st' = 1 /\
  snd (process_file w_scenario f fresh) = Ok (Failed NoData) /\
  failed_files st'
  = [String "0" (String "009"
       ("sourceRoot/reports/corrupt.xls" +:+
        String "009" ("No data could be read from file" +:+ String "010" EmptyString)))].
Proof.
  intros f st'.
  assert (Hno : no_usable_table w_scenario f)
    by (split; [intros e _; exact I | exact I]).
  assert (HD : ["outputRoot"; "reports"; "corrupt.csv"] ∉ dirs fresh)
    by apply not_elem_of_empty.
  destruct (failure_recorded w_scenario f fresh) as (H1 & H2).
  pose proof (H2 ["outputRoot"; "reports"; "corrupt.csv"] eq_refl (fun x => x)
                eq_refl HD Hno) as H3.
  split; [exact H3|].
  exact (H1 NoData (proj1 H3)).
Defined.

(** C8 (as stated) fails: when the failure log cannot be written, the
    corrupt workbook of the scenario fails to convert, no [Failed]
    outcome is returned and no record is appended. *)
Lemma failure_not_logged_when_log_unwritable :
  ~ failure_always_logged w_log_unwritable ["sourceRoot"; "reports"; "corrupt.xls"].
Proof.
  intros H.
  assert (Hb : snd (try_body w_log_unwritable ["sourceRoot"; "reports"; "corrupt.xls"]
                      (bump_total fresh)) = Raise NoData) by (vm_compute; reflexivity).
  destruct (H fresh NoData Hb) as [Ho _].
  vm_compute in Ho. discriminate Ho.
Qed.

(** ** What is written *)

Lemma verdict_write_inv (w : World) (f d : Path) (df : DataFrame)
    (m : gmap Path Csv) (D : gset Path) :
  verdict w f m D = VWrite d df ->
  output_path_of w f = Ok d /\ mkdir w (PyPath.parent d) = Ok tt /\
  m !! d = None /\ read_df w f = Some df /\ empty df = false /\
  write_file w d (csv_of df) = Written.
Proof.
  unfold verdict.
  destruct (output_path_of w f) as [d'|e]; [|discriminate].
  destruct (mkdir w (PyPath.parent d')) as [[]|e] eqn:Hmk; [|discriminate].
  destruct (present m D d') eqn:Hm; [discriminate|].
  apply present_false in Hm as [Hm _].
  destruct (read_df w f) as [df'|]; [|discriminate].
  destruct (empty df') eqn:He; simpl; [discriminate|].
  destruct (write_file w d' (csv_of df')) as [|msg lo] eqn:Hw; [|discriminate].
  intros [= <- <-]. auto 10.
Qed.

Lemma verdict_skip_inv (w : World) (f d : Path) (m : gmap Path Csv) (D : gset Path) :
  verdict w f m D = VSkip d ->
  output_path_of w f = Ok d /\ mkdir w (PyPath.parent d) = Ok tt /\
  present m D d = true.
Proof.
  unfold verdict.
  destruct (output_path_of w f) as [d'|e]; [|discriminate].
  destruct (mkdir w (PyPath.parent d')) as [[]|e] eqn:Hmk; [|discriminate].
  destruct (present m D d') eqn:Hm.
  - intros [= <-]. auto.
  - destruct (read_df w f) as [df'|]; [|discriminate].
    destruct (empty df'); simpl; [discriminate|].
    destruct (write_file w d' (csv_of df')); discriminate.
Qed.

(** The verdict behind each outcome an iteration returns. *)
Lemma process_file_outcome_inv (w : World) (f : Path) (st : State) (o : Outcome) :
  snd (process_file w f st) = Ok o ->
  match o with
  | Succeeded n =>
      exists d df, verdict w f (fs st) (dirs st) = VWrite d df /\ n = length (rows df)
  | Skipped => exists d, verdict w f (fs st) (dirs st) = VSkip d
  | Failed r => exists lo, verdict w f (fs st) (dirs st) = VFail r lo
  end.
Proof.
  intros H. destruct (process_file_spec w f st) as (_ & _ & Hstep).
  unfold ledger_step in Hstep. rewrite H in Hstep.
  destruct (verdict w f (fs st) (dirs st)) as [d|d df|e lo].
  - destruct Hstep as [[= ->] _]. eauto.
  - destruct Hstep as [[= ->] _]. eauto.
  - destruct Hstep as (_ & _ & _ & Happ).
    destruct (append_failed w f e); destruct Happ as [Ho _]; [|discriminate].
    injection Ho as ->. eauto.
Qed.

Lemma read_df_all_raise (w : World) (f : Path) :
  all_strategies_raise w f -> read_df w f = final_attempt w f.
Proof.
  intros H. unfold read_df, final_attempt.
  now rewrite (engines_df_all_raise w f engines_to_try None H).
Qed.

Lemma render_positional (k : nat) (l : list nat) :
  map render_label (map LInt l) = map pretty l.
Proof. now rewrite map_map. Qed.

(** C5 (amended). The file written for a converted workbook always
    begins with the record of the column labels of the table, [to_csv]
    being called with its default [header].  This includes a table
    read with [header=None]: pandas labels its columns by position, so
    the first record is 0, 1, ... up to the number of columns, and the
    cell values follow from the second record on. *)
Theorem csv_begins_with_labels (w : World) (f : Path) (st : State) (n : nat) :
  snd (process_file w f st) = Ok (Succeeded n) ->
  exists d df,
    output_path_of w f = Ok d /\
    snd (read_first_sheet w f st) = Ok (Some df) /\
    n = length (rows df) /\
    fs (fst (process_file w f st)) !! d
    = Some (map render_label (columns df) :: rows df) /\
    (all_strategies_raise w f ->
     read_excel w f None None = Ok df /\
     (positional_labels df ->
      fs (fst (process_file w f st)) !! d
      = Some (map pretty (seq 0 (length (columns df))) :: rows df))).
Proof.
  intros H.
  destruct (process_file_outcome_inv w f st _ H) as (d & df & Hv & Hn).
  destruct (process_file_spec w f st) as (Hfs & _ & _).
  rewrite Hv in Hfs. simpl in Hfs.
  destruct (verdict_write_inv w f d df _ _ Hv) as (Hd & _ & _ & Hdf & _ & _).
  assert (Hfile : fs (fst (process_file w f st)) !! d
                  = Some (map render_label (columns df) :: rows df))
    by (rewrite Hfs; apply lookup_insert_eq).
  exists d, df. rewrite read_first_sheet_value, Hdf.
  split; [exact Hd|]. split; [reflexivity|]. split; [exact Hn|].
  split; [exact Hfile|].
  intros Hall. split.
  - rewrite (read_df_all_raise w f Hall) in Hdf.
    unfold final_attempt in Hdf.
    destruct (read_excel w f None None); congruence.
  - intros Hpos. rewrite Hfile. unfold positional_labels in Hpos.
    rewrite Hpos at 1. now rewrite (render_positional 0).
Qed.

Lemma csv_begins_with_labels_witness :
  let f := ["sourceRoot"; "raw.xlsx"] in
  snd (process_file w_headerless f fresh) = Ok (Succeeded 1) /\
  all_strategies_raise w_headerless f /\
  positional_labels header_as_data /\
  read_excel w_headerless f None None = Ok header_as_data /\
  fs (fst (process_file w_headerless f fresh)) !! ["outputRoot"; "raw.csv"]
  = Some [["0"; "1"]; ["id"; "name"]].
Proof.
  intros f.
  assert (H : snd (process_file w_headerless f fresh) = Ok (Succeeded 1))
    by (vm_compute; reflexivity).
  assert (Hall : all_strategies_raise w_headerless f) by (intros e _; exact I).
  assert (Hpos : positional_labels header_as_data) by reflexivity.
  split; [exact H|]. split; [exact Hall|]. split; [exact Hpos|].
  split; [reflexivity|].
  destruct (csv_begins_with_labels w_headerless f fresh 1 H)
    as (d & df & Hd & Hread & _ & _ & Hfall).
  destruct (Hfall Hall) as [Hlast Hposfile].
  assert (Hdf : df = header_as_data)
    by (exact (f_equal (fun r => match r with Ok x => x | Raise _ => df end)
                 (eq_trans (eq_sym Hlast) eq_refl))).
  assert (Hdd : d = ["outputRoot"; "raw.csv"])
    by (exact (f_equal (fun r => match r with Ok x => x | Raise _ => d end)
                 (eq_trans (eq_sym Hd) eq_refl))).
  subst df d. exact (Hposfile Hpos).
Defined.

(** C5 (as stated) fails: the table read with [header=None] is written
    with the record [0,1] before the cell values. *)
Lemma headerless_table_gets_header :
  ~ headerless_table_written_raw w_headerless ["sourceRoot"; "raw.xlsx"].
Proof.
  intros H.
  specialize (H fresh ["outputRoot"; "raw.csv"] header_as_data
                (fun e _ => I) eq_refl).
  assert (Hs : snd (process_file w_headerless ["sourceRoot"; "raw.xlsx"] fresh)
               = Ok (Succeeded (length (rows header_as_data))))
    by (vm_compute; reflexivity).
  specialize (H Hs eq_refl).
  vm_compute in H. discriminate H.
Qed.

(** ** Files are created, never replaced *)

Lemma verdict_leftover_inv (w : World) (f d : Path) (e : string) (c : Csv)
    (m : gmap Path Csv) (D : gset Path) :
  verdict w f m D = VFail e (Some (d, c)) -> m !! d = None.
Proof.
  unfold verdict.
  destruct (output_path_of w f) as [d'|e0]; [|discriminate].
  destruct (mkdir w (PyPath.parent d')) as [[]|e0]; [|discriminate].
  destruct (present m D d') eqn:Hm; [discriminate|].
  apply present_false in Hm as [Hm _].
  destruct (read_df w f) as [df'|]; [|discriminate].
  destruct (empty df'); simpl; [discriminate|].
  destruct (write_file w d' (csv_of df')) as [|msg [c'|]]; simpl; try discriminate.
  now intros [= _ <- _].
Qed.

Lemma fs_after_mono (w : World) (f : Path) (m : gmap Path Csv) (D : gset Path) :
  m ⊆ fs_after (verdict w f m D) m.
Proof.
  destruct (verdict w f m D) as [d|d df|e [[d c]|]] eqn:Hv; simpl; try reflexivity.
  - apply insert_subseteq.
    now destruct (verdict_write_inv w f d df m D Hv) as (_ & _ & ? & _).
  - apply insert_subseteq. exact (verdict_leftover_inv w f d e c m D Hv).
Qed.

Lemma process_file_fs_mono (w : World) (f : Path) (st : State) :
  fs st ⊆ fs (fst (process_file w f st)).
Proof.
  destruct (process_file_spec w f st) as (Hfs & _).
  rewrite Hfs. apply fs_after_mono.
Qed.

Lemma process_files_fs_mono (w : World) (files : list Path) (st : State) :
  fs st ⊆ fs (fst (process_files w files st)).
Proof.
  revert st. induction files as [|f rest IH]; intros st; [reflexivity|].
  rewrite process_files_cons.
  pose proof (process_file_fs_mono w f st) as H1.
  destruct (process_file w f st) as [st1 [o|e]]; simpl in *; [|exact H1].
  specialize (IH st1).
  destruct (process_files w rest st1) as [st2 [os|e]]; simpl in *;
    (etrans; [exact H1 | exact IH]).
Qed.

(** The directories after an iteration: those before it and, when
    [mkdir] went through, the directory of the destination with its
    ancestors. *)
Lemma process_file_dirs (w : World) (f : Path) (st : State) :
  dirs (fst (process_file w f st)) = dirs_after w f (dirs st).
Proof.
  unfold dirs_after. unfold_script. simpl.
  destruct (output_path_of w f) as [d|e] eqn:Hout; simpl.
  2: { now destruct (append_failed w f e). }
  destruct (mkdir w (PyPath.parent d)) as [[]|e]; simpl.
  2: { now destruct (append_failed w f e). }
  destruct (present (fs st) _ d); simpl; [reflexivity|].
  rewrite try_engines_run. simpl.
  destruct (engines_df w f engines_to_try None) as [df|]; simpl.
  - destruct (empty df); simpl.
    + now destruct (append_failed w f NoData).
    + destruct (write_file w d (csv_of df)) as [|msg [c|]]; simpl; auto;
        now destruct (append_failed w f msg).
  - destruct (read_excel w f None None) as [df|msg]; simpl.
    + destruct (empty df); simpl.
      * now destruct (append_failed w f NoData).
      * destruct (write_file w d (csv_of df)) as [|msg [c|]]; simpl; auto;
          now destruct (append_failed w f msg).
    + now destruct (append_failed w f NoData).
Qed.

Lemma dirs_after_mono (w : World) (f : Path) (D : gset Path) :
  D ⊆ dirs_after w f D.
Proof.
  unfold dirs_after. destruct (output_path_of w f) as [d|e]; [|reflexivity].
  destruct (mkdir w (PyPath.parent d)); [set_solver | reflexivity].
Qed.

Lemma process_file_dirs_mono (w : World) (f : Path) (st : State) :
  dirs st ⊆ dirs (fst (process_file w f st)).
Proof. rewrite process_file_dirs. apply dirs_after_mono. Qed.

Lemma process_files_dirs_mono (w : World) (files : list Path) (st : State) :
  dirs st ⊆ dirs (fst (process_files w files st)).
Proof.
  revert st. induction files as [|f rest IH]; intros st; [reflexivity|].
  rewrite process_files_cons.
  pose proof (process_file_dirs_mono w f st) as H1.
  destruct (process_file w f st) as [st1 [o|e]]; simpl in *; [|exact H1].
  specialize (IH st1).
  destruct (process_files w rest st1) as [st2 [os|e]]; simpl in *;
    (etrans; [exact H1 | exact IH]).
Qed.

Lemma verdict_skip (w : World) (f d : Path) (m : gmap Path Csv) (D : gset Path) :
  output_path_of w f = Ok d -> mkdir w (PyPath.parent d) = Ok tt ->
  present m D d = true -> verdict w f m D = VSkip d.
Proof. intros Hd Hmk Hm. unfold verdict. now rewrite Hd, Hmk, Hm. Qed.

Lemma process_file_skip (w : World) (f d : Path) (st : State) :
  output_path_of w f = Ok d -> mkdir w (PyPath.parent d) = Ok tt ->
  present (fs st) (dirs st) d = true ->
  snd (process_file w f st) = Ok Skipped /\ fs (fst (process_file w f st)) = fs st.
Proof.
  intros Hd Hmk Hm. destruct (process_file_spec w f st) as (Hfs & _ & Hstep).
  unfold ledger_step in Hstep.
  rewrite (verdict_skip w f d (fs st) (dirs st) Hd Hmk Hm) in Hfs, Hstep.
  now destruct Hstep as [-> _].
Qed.

Lemma process_file_present_mono (w : World) (f d : Path) (st : State) :
  present (fs st) (dirs st) d = true ->
  present (fs (fst (process_file w f st))) (dirs (fst (process_file w f st))) d = true.
Proof.
  apply present_mono; [apply process_file_fs_mono | apply process_file_dirs_mono].
Qed.

(** Once something is at a destination, every file mapped to it is
    skipped. *)
Lemma existing_destination_skipped (w : World) (files : list Path) (st : State)
    (d : Path) (outs : list Outcome) :
  present (fs st) (dirs st) d = true -> mkdir w (PyPath.parent d) = Ok tt ->
  snd (process_files w files st) = Ok outs ->
  forall j f, files !! j = Some f -> output_path_of w f = Ok d ->
              outs !! j = Some Skipped.
Proof.
  revert st outs. induction files as [|f0 rest IH]; intros st outs Hm Hmk Hrun j f Hj Hd.
  - destruct j; discriminate.
  - rewrite process_files_cons in Hrun.
    pose proof (process_file_present_mono w f0 d st Hm) as Hmono.
    destruct j as [|j]; simpl in Hj.
    + injection Hj as ->.
      destruct (process_file_skip w f d st Hd Hmk Hm) as [Ho _].
      destruct (process_file w f st) as [st1 [o|e]]; simpl in *; [|discriminate].
      destruct (process_files w rest st1) as [st2 [os|e]]; simpl in *; [|discriminate].
      injection Hrun as <-. simpl. congruence.
    + destruct (process_file w f0 st) as [st1 [o|e]]; simpl in *; [|discriminate].
      destruct (process_files w rest st1) as [st2 [os|e]] eqn:Hrest; simpl in *;
        [|discriminate].
      injection Hrun as <-. simpl.
      apply (IH st1 os) with (f := f); auto.
      now rewrite Hrest.
Qed.

(** What an iteration that does not fail leaves at its destination. *)
Lemma destination_after_step (w : World) (f d : Path) (st : State) (o : Outcome) :
  snd (process_file w f st) = Ok o -> is_failed o = false ->
  output_path_of w f = Ok d ->
  let st' := fst (process_file w f st) in
  mkdir w (PyPath.parent d) = Ok tt /\
  present (fs st') (dirs st') d = true /\
  forall n, o = Succeeded n ->
            exists df, read_df w f = Some df /\ fs st' !! d = Some (csv_of df).
Proof.
  intros Ho Hnf Hd st'.
  destruct (process_file_spec w f st) as (Hfs & _ & _).
  pose proof (process_file_outcome_inv w f st o Ho) as Hinv.
  destruct o as [n|r|]; [| discriminate |].
  - destruct Hinv as (d' & df & Hv & _).
    destruct (verdict_write_inv w f d' df _ _ Hv) as (Hd' & Hmk & _ & Hdf & _).
    assert (d' = d) by congruence. subst d'.
    rewrite Hv in Hfs. simpl in Hfs.
    assert (Hfile : fs st' !! d = Some (csv_of df))
      by (unfold st'; rewrite Hfs; apply lookup_insert_eq).
    split; [exact Hmk|]. split; [apply present_true; left; eauto | eauto].
  - destruct Hinv as (d' & Hv).
    destruct (verdict_skip_inv w f d' _ _ Hv) as (Hd' & Hmk & Hp).
    assert (d' = d) by congruence. subst d'.
    split; [exact Hmk|]. split; [|discriminate].
    now apply process_file_present_mono.
Qed.

(** After a file that did not fail, every later file with the same
    destination is skipped, and what a converted file wrote stays. *)
Lemma later_files_skipped (w : World) (files : list Path) (st : State)
    (outs : list Outcome) :
  snd (process_files w files st) = Ok outs ->
  forall i j fi fj d o,
    i < j -> files !! i = Some fi -> files !! j = Some fj ->
    output_path_of w fi = Ok d -> output_path_of w fj = Ok d ->
    outs !! i = Some o -> is_failed o = false ->
    outs !! j = Some Skipped /\
    forall n, o = Succeeded n ->
              exists df, read_df w fi = Some df /\
                         fs (fst (process_files w files st)) !! d = Some (csv_of df).
Proof.
  revert st outs. induction files as [|f0 rest IH];
    intros st outs Hrun i j fi fj d o Hlt Hi Hj Hdi Hdj Ho Hnf.
  - destruct i; discriminate.
  - rewrite process_files_cons in Hrun |- *.
    destruct (process_file w f0 st) as [st1 [o0|e]] eqn:Hstep; simpl in *;
      [|discriminate].
    pose proof (process_files_fs_mono w rest st1) as Hmono.
    destruct (process_files w rest st1) as [st2 [os|e]] eqn:Hrest; simpl in *;
      [|discriminate].
    injection Hrun as <-.
    destruct j as [|j]; [lia|]. simpl in Hj |- *.
    destruct i as [|i]; simpl in Hi, Ho.
    + injection Hi as ->. injection Ho as ->.
      destruct (destination_after_step w fi d st o) as (Hmk & Hp & Hcontent); auto.
      { now rewrite Hstep. }
      rewrite Hstep in Hp, Hcontent. simpl in Hp, Hcontent. split.
      * apply (existing_destination_skipped w rest st1 d os Hp Hmk) with (f := fj); auto.
        now rewrite Hrest.
      * intros n Hn. destruct (Hcontent n Hn) as (df & Hdf & Hfile).
        exists df. split; [exact Hdf|]. eapply lookup_weaken; eauto.
    + specialize (IH st1 os). rewrite Hrest in IH. simpl in IH.
      apply (IH eq_refl i j fi fj d o); auto. lia.
Qed.




(** C3 (amended). Two files below the source folder get the same
    destination exactly when they lie in the same directory and have the
    same stem, so files that differ only in their extension collide.
    Even so no destination is written for two source files in one run:
    when a file is converted, no other file with its destination is. *)
Theorem destinations_collide_by_stem (w : World) :
  (forall dirs1 dirs2 n1 n2,
     output_path_of w (SOURCE_FOLDER w // dirs1 // [n1])
     = output_path_of w (SOURCE_FOLDER w // dirs2 // [n2])
     <-> dirs1 = dirs2 /\ PyPath.stem [n1] = PyPath.stem [n2])
  /\
  (forall files st outs i j fi fj d n oj,
     snd (process_files w files st) = Ok outs ->
     i <> j -> files !! i = Some fi -> files !! j = Some fj ->
     output_path_of w fi = Ok d -> output_path_of w fj = Ok d ->
     outs !! i = Some (Succeeded n) -> outs !! j = Some oj ->
     is_succeeded oj = false).
Proof.
  split; [apply same_destination_iff|].
  intros files st outs i j fi fj d n oj Hrun Hne Hi Hj Hdi Hdj Hoi Hoj.
  destruct (Nat.lt_total i j) as [Hlt|[Heq|Hgt]]; [| contradiction |].
  - destruct (later_files_skipped w files st outs Hrun i j fi fj d (Succeeded n))
      as (Hskip & _); auto.
    rewrite Hskip in Hoj. now injection Hoj as <-.
  - destruct (is_failed oj) eqn:Hf; [now destruct oj|].
    destruct (later_files_skipped w files st outs Hrun j i fj fi d oj)
      as (Habs & _); auto.
    congruence.
Qed.

Lemma destinations_collide_by_stem_witness :
  output_path_of w_twins ["sourceRoot"; "a.xls"]
  = output_path_of w_twins ["sourceRoot"; "a.xlsx"] /\
  snd (process_files w_twins (discover w_twins) fresh) = Ok [Succeeded 2; Skipped] /\
  is_succeeded Skipped = false.
Proof.
  assert (Hrun : snd (process_files w_twins (discover w_twins) fresh)
                 = Ok [Succeeded 2; Skipped]) by (vm_compute; reflexivity).
  split.
  - exact (proj2 (proj1 (destinations_collide_by_stem w_twins) [] [] "a.xls" "a.xlsx")
             (conj eq_refl eq_refl)).
  - split; [exact Hrun|].
    exact (proj2 (destinations_collide_by_stem w_twins)
             (discover w_twins) fresh [Succeeded 2; Skipped] 0 1
             ["sourceRoot"; "a.xls"] ["sourceRoot"; "a.xlsx"] ["outputRoot"; "a.csv"]
             2 Skipped Hrun (fun H => O_S 0 H) eq_refl eq_refl eq_refl eq_refl
             eq_refl eq_refl).
Defined.

(** C3 (as stated) fails: [a.xls] and [a.xlsx] in one directory are both
    discovered and both map to [a.csv]. *)
Lemma twins_share_destination : ~ destinations_injective w_twins.
Proof.
  intros H.
  apply (H ["sourceRoot"; "a.xls"] ["sourceRoot"; "a.xlsx"]).
  - vm_compute. tauto.
  - vm_compute. tauto.
  - discriminate.
  - reflexivity.
Qed.

(** ** Discovery *)

Module Discovery.

Lemma endswith_refl (s : string) : PyStr.endswith s s = true.
Proof. destruct s; simpl; [reflexivity|]. now rewrite Ascii.eqb_refl, String.eqb_refl. Qed.

Lemma endswith_length (s e : string) :
  PyStr.endswith s e = true -> String.length e <= String.length s.
Proof.
  induction s as [|a s IH]; simpl.
  - destruct e; simpl; [intros _; lia | discriminate].
  - intros H. apply orb_true_iff in H as [H|H].
    + change (String.eqb (String a s) e = true) in H.
      apply String.eqb_eq in H. subst e. simpl. lia.
    + specialize (IH H). lia.
Qed.

Lemma endswith_cons (a : ascii) (s e : string) :
  PyStr.endswith (String a s) e = String.eqb (String a s) e || PyStr.endswith s e.
Proof. reflexivity. Qed.

(** Two suffixes of one string: one of them is a suffix of the other. *)
Lemma endswith_both (s e1 e2 : string) :
  PyStr.endswith s e1 = true -> PyStr.endswith s e2 = true ->
  PyStr.endswith e2 e1 = true \/ PyStr.endswith e1 e2 = true.
Proof.
  induction s as [|a s IH].
  - destruct e1, e2; simpl; try discriminate. auto.
  - rewrite !endswith_cons. intros H1 H2.
    apply orb_true_iff in H1 as [H1|H1]; apply orb_true_iff in H2 as [H2|H2].
    + apply String.eqb_eq in H1, H2. subst. left. apply endswith_refl.
    + apply String.eqb_eq in H1. subst e1. right.
      rewrite endswith_cons, H2. apply orb_true_r.
    + apply String.eqb_eq in H2. subst e2. left.
      rewrite endswith_cons, H1. apply orb_true_r.
    + now apply IH.
Qed.

Lemma normcase_extension (w : World) (ext : string) :
  In ext excel_extensions -> normcase w ext = ext.
Proof.
  unfold normcase. destruct (case_sensitive w); [reflexivity|].
  simpl. intros [<-|[<-|[<-|[<-|[]]]]]; reflexivity.
Qed.

(** A name matches the pattern of at most one extension. *)
Lemma glob_match_unique (w : World) (e1 e2 nm : string) :
  In e1 excel_extensions -> In e2 excel_extensions ->
  glob_match w e1 nm = true -> glob_match w e2 nm = true -> e1 = e2.
Proof.
  intros H1 H2. unfold glob_match.
  rewrite (normcase_extension w e1 H1), (normcase_extension w e2 H2).
  intros M1 M2. destruct (endswith_both _ _ _ M1 M2) as [H|H]; revert H;
    simpl in H1, H2;
    destruct H1 as [<-|[<-|[<-|[<-|[]]]]]; destruct H2 as [<-|[<-|[<-|[<-|[]]]]];
    vm_compute; intros; first [reflexivity | discriminate].
Qed.

Lemma in_discover (w : World) (p : Path) :
  In p (discover w) <->
  In p (tree w) /\
  exists ext, In ext excel_extensions /\ glob_match w ext (PyPath.name p) = true.
Proof.
  unfold discover. rewrite in_flat_map. unfold rglob. split.
  - intros (ext & He & Hp). apply filter_In in Hp as [Hp Hm]. eauto.
  - intros (Hp & ext & He & Hm). exists ext. split; [exact He|].
    apply filter_In. auto.
Qed.

Lemma NoDup_rglobs (w : World) (exts : list string) :
  List.NoDup exts -> (forall e, In e exts -> In e excel_extensions) ->
  List.NoDup (tree w) -> List.NoDup (flat_map (rglob w) exts).
Proof.
  intros Hexts Hsub Htree. induction Hexts as [|e exts Hnotin Hnd IH]; simpl.
  - constructor.
  - apply List.NoDup_app.
    + unfold rglob. now apply List.NoDup_filter.
    + apply IH. intros e' He'. apply Hsub. now right.
    + intros p Hp Hq.
      apply filter_In in Hp as [_ Hm].
      apply in_flat_map in Hq as (e' & He' & Hq).
      apply filter_In in Hq as [_ Hm'].
      assert (e = e').
      { apply (glob_match_unique w e e' (PyPath.name p)); auto.
        - apply Hsub. now left.
        - apply Hsub. now right. }
      subst e'. now apply Hnotin.
Qed.

End Discovery.

(** Where a loop that is left by an exception stood: the files before
    position [k] have their outcomes, the handler of the file at [k]
    raised, and that file is the last one counted. *)
Lemma process_files_abort (w : World) (files : list Path) (s : State) (e : string) :
  snd (process_files w files s) = Raise e ->
  exists k outs f,
    files !! k = Some f /\
    snd (process_files w (List.firstn k files) s) = Ok outs /\ length outs = k /\
    snd (process_file w f (fst (process_files w (List.firstn k files) s))) = Raise e /\
    fst (process_files w files s)
    = fst (process_file w f (fst (process_files w (List.firstn k files) s))) /\
    total (fst (process_files w files s)) = total s + S k.
Proof.
  revert s. induction files as [|f0 rest IH]; intros s Hr; [discriminate|].
  rewrite process_files_cons in Hr |- *.
  destruct (process_file_recorded w f0 s) as [Htot _].
  destruct (process_file w f0 s) as [s1 [o|e0]] eqn:Hstep; simpl in *.
  - specialize (IH s1).
    destruct (process_files w rest s1) as [s2 [os|e1]] eqn:Hrest; simpl in *;
      [discriminate|].
    injection Hr as ->.
    destruct (IH eq_refl) as (k & outs & f & Hk & Hok & Hlen & Hraise & Hfst & Ht).
    exists (S k), (o :: outs), f.
    change (List.firstn (S k) (f0 :: rest)) with (f0 :: List.firstn k rest).
    rewrite process_files_cons, Hstep.
    destruct (process_files w (List.firstn k rest) s1) as [sk rk]; simpl in *.
    subst rk. simpl. repeat split; auto; lia.
  - injection Hr as ->. exists 0, [], f0.
    change (List.firstn 0 (f0 :: rest)) with (@nil Path).
    change (process_files w [] s) with (s, @Ok (list Outcome) []).
    simpl. rewrite Hstep. simpl. repeat split; auto; lia.
Qed.

Lemma convert_abort (w : World) (st : State) (e : string) :
  snd (convert_excel_to_csv w st) = Raise e ->
  fst (convert_excel_to_csv w st)
  = fst (process_files w (discover w)
           (set_run_log (run_log st ++ [LogFound (length (discover w))])
              (set_counters 0 0 0 0 st))).
Proof.
  unfold convert_excel_to_csv, logger, gets, modify, mbind, M_bind, mret, M_ret.
  simpl.
  destruct (process_files w (discover w) _) as [st1 [os|e1]]; simpl;
    [discriminate | reflexivity].
Qed.

(** C4 (amended). Discovery lists exactly the entries below the source
    folder whose name ends in one of [.xls], [.xlsx], [.xlsm], [.xlsb]
    under the casing rule of the platform's glob (names as they are on
    POSIX, lower-cased on Windows), each entry once.  The loop takes
    the listed entries in order, one iteration each: a run that reaches
    its end has visited every one of them exactly once; a run that is
    ended by an exception of the failure-log append has visited the
    entries up to and including the one whose record could not be
    written, and none after it. *)
Theorem discovery_follows_platform_case (w : World) :
  (forall p : Path,
     In p (discover w) <->
     In p (tree w) /\
     exists ext, In ext excel_extensions /\
                 PyStr.endswith (normcase w (PyPath.name p)) ext = true)
  /\
  (List.NoDup (tree w) -> List.NoDup (discover w))
  /\
  (forall st outs, snd (convert_excel_to_csv w st) = Ok outs ->
                   length outs = length (discover w) /\
                   total (fst (convert_excel_to_csv w st)) = length (discover w))
  /\
  (forall st e, snd (convert_excel_to_csv w st) = Raise e ->
     let start := set_run_log (run_log st ++ [LogFound (length (discover w))])
                    (set_counters 0 0 0 0 st) in
     exists k outs f,
       discover w !! k = Some f /\
       snd (process_files w (List.firstn k (discover w)) start) = Ok outs /\
       length outs = k /\
       snd (process_file w f (fst (process_files w (List.firstn k (discover w)) start)))
       = Raise e /\
       fst (convert_excel_to_csv w st)
       = fst (process_file w f (fst (process_files w (List.firstn k (discover w)) start))) /\
       total (fst (convert_excel_to_csv w st)) = S k).
Proof.
  split; [|split; [|split]].
  - intros p. rewrite Discovery.in_discover. unfold glob_match.
    split; intros (Hp & ext & He & Hm); (split; [exact Hp|]); exists ext;
      (split; [exact He|]);
      [now rewrite <- (Discovery.normcase_extension w ext He)
      | now rewrite (Discovery.normcase_extension w ext He)].
  - intros Htree. apply Discovery.NoDup_rglobs; auto.
    repeat constructor; simpl; intuition discriminate.
  - intros st outs H. destruct (convert_unfold w st) as (Hsnd & Ht & _).
    rewrite Hsnd in H. rewrite Ht.
    destruct (process_files_tally w _ _ _ H) as (Hl & Htot & _).
    split; [exact Hl|]. rewrite Htot. reflexivity.
  - intros st e H start.
    rewrite (convert_abort w st e H).
    destruct (convert_unfold w st) as (Hsnd & _). rewrite Hsnd in H.
    destruct (process_files_abort w (discover w) start e H)
      as (k & outs & f & Hk & Hok & Hlen & Hraise & Hfst & Ht).
    exists k, outs, f. fold start. rewrite Ht. auto 10.
Qed.

Lemma discovery_follows_platform_case_witness :
  List.NoDup (tree w_scenario) /\ List.NoDup (discover w_scenario) /\
  snd (convert_excel_to_csv w_scenario fresh) = Ok [Failed NoData; Succeeded 2] /\
  total (fst (convert_excel_to_csv w_scenario fresh)) = length (discover w_scenario) /\
  snd (convert_excel_to_csv w_log_unwritable fresh) = Raise "No space left on device" /\
  exists k f, discover w_log_unwritable !! k = Some f /\
              total (fst (convert_excel_to_csv w_log_unwritable fresh)) = S k.
Proof.
  assert (Ht : List.NoDup (tree w_scenario)).
  { repeat constructor; simpl; intuition discriminate. }
  assert (Hrun : snd (convert_excel_to_csv w_scenario fresh)
                 = Ok [Failed NoData; Succeeded 2]) by (vm_compute; reflexivity).
  assert (Habort : snd (convert_excel_to_csv w_log_unwritable fresh)
                   = Raise "No space left on device") by (vm_compute; reflexivity).
  destruct (discovery_follows_platform_case w_scenario) as (_ & Hnd & Hlen & _).
  destruct (discovery_follows_platform_case w_log_unwritable) as (_ & _ & _ & Hab).
  split; [exact Ht|]. split; [exact (Hnd Ht)|]. split; [exact Hrun|].
  split; [exact (proj2 (Hlen fresh _ Hrun))|]. split; [exact Habort|].
  destruct (Hab fresh _ Habort) as (k & outs & f & Hf & _ & _ & _ & _ & Hk).
  exists k, f. split; [exact Hf | exact Hk].
Defined.

(** C4 (as stated) fails: on a platform whose glob is case-sensitive the
    entry [REPORT.XLS] is not discovered. *)
Lemma upper_case_extension_missed : ~ discovers_ignoring_case w_upper_case.
Proof.
  intros H.
  assert (Hin : In ["sourceRoot"; "REPORT.XLS"] (discover w_upper_case)).
  { apply H. split; [now left|]. exists ".xls"%string. split; [now left | reflexivity]. }
  exact Hin.
Qed.

(** ** Running twice *)

(** A file that failed fails the same way when tried again, unless
    something has appeared at its destination in the meantime. *)
Lemma verdict_fail_again (w : World) (f : Path) (r : string)
    (lo : option (Path * Csv)) (m m2 : gmap Path Csv) (D D2 : gset Path) :
  verdict w f m D = VFail r lo -> fs_after (VFail r lo) m ⊆ m2 ->
  (exists d, verdict w f m2 D2 = VSkip d) \/ verdict w f m2 D2 = VFail r None.
Proof.
  unfold verdict.
  destruct (output_path_of w f) as [d|e]; [|intros [= <- <-]; now right].
  destruct (mkdir w (PyPath.parent d)) as [[]|e]; [|intros [= <- <-]; now right].
  destruct (present m D d) eqn:Hm; [discriminate|].
  destruct (present m2 D2 d) eqn:Hm2; [intros _ _; left; eauto|].
  apply present_false in Hm2 as [Hm2 _].
  destruct (read_df w f) as [df|]; [|intros [= <- <-]; now right].
  destruct (empty df); simpl; [intros [= <- <-]; now right|].
  destruct (write_file w d (csv_of df)) as [|msg [c|]]; simpl; [discriminate | |].
  - intros [= <- <-] Hsub. simpl in Hsub.
    assert (m2 !! d = Some c) by (eapply lookup_weaken; [apply lookup_insert_eq | exact Hsub]).
    congruence.
  - intros [= <- <-] _. now right.
Qed.

Lemma process_file_again (w : World) (f : Path) (st st2 : State) (o : Outcome) :
  snd (process_file w f st) = Ok o ->
  fs (fst (process_file w f st)) ⊆ fs st2 ->
  dirs (fst (process_file w f st)) ⊆ dirs st2 ->
  exists o2, snd (process_file w f st2) = Ok o2 /\
             fs (fst (process_file w f st2)) = fs st2 /\
             rerun o o2.
Proof.
  intros Ho Hsub HD.
  destruct (process_file_spec w f st) as (Hfs & _ & Hstep).
  pose proof (process_file_outcome_inv w f st o Ho) as Hinv.
  destruct (is_failed o) eqn:Hfail.
  - destruct o as [n|r|]; try discriminate.
    destruct Hinv as (lo & Hv). rewrite Hfs, Hv in Hsub.
    unfold ledger_step in Hstep. rewrite Hv, Ho in Hstep.
    destruct Hstep as (_ & _ & _ & Happ).
    destruct (append_failed w f r) as [[]|e] eqn:Ha;
      [|destruct Happ; discriminate].
    destruct (process_file_spec w f st2) as (Hfs2 & _ & Hstep2).
    unfold ledger_step in Hstep2.
    destruct (verdict_fail_again w f r lo _ _ (dirs st) (dirs st2) Hv Hsub)
      as [[d Hv2]|Hv2]; rewrite Hv2 in Hfs2, Hstep2; simpl in Hfs2.
    + destruct Hstep2 as [Hs _]. exists Skipped. simpl. auto.
    + rewrite Ha in Hstep2. destruct Hstep2 as (_ & _ & _ & Hs & _).
      exists (Failed r). simpl. auto.
  - assert (Hd : exists d, output_path_of w f = Ok d).
    { destruct o as [n|r|]; try discriminate.
      - destruct Hinv as (d & df & Hv & _).
        destruct (verdict_write_inv w f d df _ _ Hv) as (Hd & _). eauto.
      - destruct Hinv as (d & Hv).
        destruct (verdict_skip_inv w f d _ _ Hv) as (Hd & _). eauto. }
    destruct Hd as [d Hd].
    destruct (destination_after_step w f d st o Ho Hfail Hd) as (Hmk & Hp & _).
    assert (Hp2 : present (fs st2) (dirs st2) d = true)
      by (eapply present_mono; eauto).
    destruct (process_file_skip w f d st2 Hd Hmk Hp2) as [Hs Hf].
    exists Skipped. split; [exact Hs|]. split; [exact Hf|].
    destruct o; simpl; auto; discriminate.
Qed.

(** Each outcome of a loop that ended is the outcome of an iteration
    whose files and directories are still there at the end. *)
Lemma process_files_trace (w : World) (files : list Path) (st : State)
    (outs : list Outcome) :
  snd (process_files w files st) = Ok outs ->
  forall f o, In (f, o) (combine files outs) ->
    exists s, snd (process_file w f s) = Ok o /\
              fs (fst (process_file w f s)) ⊆ fs (fst (process_files w files st)) /\
              dirs (fst (process_file w f s)) ⊆ dirs (fst (process_files w files st)).
Proof.
  revert st outs. induction files as [|f0 rest IH]; intros st outs Hrun f o Hin.
  - destruct Hin.
  - rewrite process_files_cons in Hrun |- *.
    destruct (process_file w f0 st) as [st1 [o0|e]] eqn:Hstep; simpl in *;
      [|discriminate].
    pose proof (process_files_fs_mono w rest st1) as Hm.
    pose proof (process_files_dirs_mono w rest st1) as HD.
    specialize (IH st1).
    destruct (process_files w rest st1) as [st2 [os|e]] eqn:Hrest; simpl in *;
      [|discriminate].
    injection Hrun as <-. simpl in Hin. destruct Hin as [[= <- <-]|Hin].
    + exists st. rewrite Hstep. simpl. auto.
    + apply (IH os eq_refl f o Hin).
Qed.

Lemma combine_covers (files : list Path) (outs : list Outcome) (f : Path) :
  length outs = length files -> In f files ->
  exists o, In (f, o) (combine files outs).
Proof.
  revert outs. induction files as [|f0 rest IH]; intros outs Hlen Hin; [destruct Hin|].
  destruct outs as [|o os]; [discriminate|]. simpl in *.
  destruct Hin as [->|Hin]; [eauto|].
  destruct (IH os) as [o' Ho']; [lia | exact Hin | eauto].
Qed.




Lemma process_files_with_tree (w : World) (entries files : list Path) (st : State) :
  process_files (with_tree w entries) files st = process_files w files st.
Proof.
  revert st. induction files as [|f rest IH]; intros st; [reflexivity|].
  rewrite !process_files_cons.
  change (process_file (with_tree w entries) f st) with (process_file w f st).
  destruct (process_file w f st) as [st1 [o|e]]; [|reflexivity].
  now rewrite IH.
Qed.

Lemma convert_dirs (w : World) (st : State) :
  dirs (fst (convert_excel_to_csv w st))
  = dirs (fst (process_files w (discover w)
                 (set_run_log (run_log st ++ [LogFound (length (discover w))])
                    (set_counters 0 0 0 0 st)))).
Proof.
  unfold convert_excel_to_csv, logger, gets, modify, mbind, M_bind, mret, M_ret.
  simpl.
  now destruct (process_files w (discover w) _) as [st1 [os|e]].
Qed.




(** * Further properties of the script *)

(** ** The engine loop (lines 73-88) *)

Lemma engines_log_cons (w : World) (f : Path) (e : option Engine)
    (es : list (option Engine)) :
  engines_log w f (e :: es)
  = match read_excel w f e (Some 0) with
    | Ok d => if negb (empty d) then [LogRead e] else engines_log w f es
    | Raise _ => engines_log w f es
    end.
Proof. reflexivity. Qed.

Lemma engines_first_success (w : World) (f : Path) (es1 es2 : list (option Engine))
    (e : option Engine) (d : DataFrame) (df0 : option DataFrame) :
  (forall e', In e' es1 -> fails_or_empty (read_excel w f e' (Some 0))) ->
  read_excel w f e (Some 0) = Ok d -> empty d = false ->
  engines_df w f (es1 ++ e :: es2) df0 = Some d /\
  engines_log w f (es1 ++ e :: es2) = [LogRead e].
Proof.
  intros Hfail Hr Hne. revert df0.
  induction es1 as [|e1 es1 IH]; intros df0; simpl app.
  - rewrite engines_df_cons, engines_log_cons, Hr, Hne. auto.
  - rewrite engines_df_cons, engines_log_cons.
    pose proof (Hfail e1 (or_introl eq_refl)) as H1.
    assert (Hrest : forall e', In e' es1 -> fails_or_empty (read_excel w f e' (Some 0)))
      by (intros e' He'; apply Hfail; now right).
    destruct (read_excel w f e1 (Some 0)) as [d1|msg]; simpl in H1.
    + rewrite H1. simpl. apply (IH Hrest).
    + apply (IH Hrest).
Qed.

(** X1. First success wins: the table the script goes on with is the one
    of the first engine, in the order xlrd, openpyxl, default, that
    returns a table with data.  Engines after it and the read with
    [header=None] are not consulted, and the run log gains the one
    record naming that engine. *)
Theorem first_success_wins (w : World) (f : Path) (es1 es2 : list (option Engine))
    (e : option Engine) (d : DataFrame) (st : State) :
  engines_to_try = es1 ++ e :: es2 ->
  (forall e', In e' es1 -> fails_or_empty (read_excel w f e' (Some 0))) ->
  read_excel w f e (Some 0) = Ok d -> empty d = false ->
  read_first_sheet w f st
  = (set_run_log (run_log st ++ [LogRead e]) st, Ok (Some d)).
Proof.
  intros Hes Hfail Hr Hne.
  destruct (engines_first_success w f es1 es2 e d None Hfail Hr Hne) as [Hdf Hlog].
  unfold read_first_sheet, read_without_header, mbind, M_bind, mret, M_ret.
  rewrite try_engines_run, Hes, Hdf, Hlog. reflexivity.
Qed.

Lemma first_success_wins_witness :
  let f := ["sourceRoot"; "reports"; "q1.xlsx"] in
  engines_to_try = [Some xlrd] ++ Some openpyxl :: [None] /\
  raises (read_excel w_scenario f (Some xlrd) (Some 0)) /\
  read_first_sheet w_scenario f fresh
  = (set_run_log [LogRead (Some openpyxl)] fresh, Ok (Some small_table)).
Proof.
  intros f.
  assert (Hfail : forall e', In e' [Some xlrd] ->
                             fails_or_empty (read_excel w_scenario f e' (Some 0))).
  { intros e' [<-|[]]. exact I. }
  split; [reflexivity|]. split; [exact I|].
  exact (first_success_wins w_scenario f [Some xlrd] [None] (Some openpyxl)
           small_table fresh eq_refl Hfail eq_refl eq_refl).
Defined.

(** ** Converting a file (lines 98-104) *)

Lemma verdict_write (w : World) (f d : Path) (df : DataFrame)
    (m : gmap Path Csv) (D : gset Path) :
  output_path_of w f = Ok d -> mkdir w (PyPath.parent d) = Ok tt ->
  present m D d = false -> read_df w f = Some df -> empty df = false ->
  verdict w f m D
  = match write_file w d (csv_of df) with
    | Written => VWrite d df
    | WriteError msg lo => VFail msg (option_map (pair d) lo)
    end.
Proof.
  intros Hd Hmk Hm Hdf Hne. unfold verdict.
  now rewrite Hd, Hmk, Hm, Hdf, Hne.
Qed.

(** X2. A file is converted whenever it can be: if its destination is
    computed, the directory is made, nothing is at the destination yet,
    neither a file nor a directory, the cascade ends with a table that
    has data and the write goes through, the file is recorded as
    succeeded with the number of data rows, the destination holds the
    labels followed by the rows, every other file is as it was and
    nothing is added to the failure log. *)
Theorem converts_when_possible (w : World) (f d : Path) (df : DataFrame) (st : State) :
  output_path_of w f = Ok d ->
  mkdir w (PyPath.parent d) = Ok tt ->
  fs st !! d = None -> d ∉ dirs st ->
  snd (read_first_sheet w f st) = Ok (Some df) ->
  empty df = false ->
  write_file w d (csv_of df) = Written ->
  let st' := fst (process_file w f st) in
  snd (process_file w f st) = Ok (Succeeded (length (rows df))) /\
  fs st' = <[d := map render_label (columns df) :: rows df]> (fs st) /\
  succeeded st' = S (succeeded st) /\
  failed_files st' = failed_files st.
Proof.
  intros Hd Hmk Hm HD Hread Hne Hw st'.
  rewrite read_first_sheet_value in Hread. injection Hread as Hdf.
  assert (Hp : present (fs st) (dirs st) d = false) by (apply present_false; auto).
  destruct (process_file_spec w f st) as (Hfs & _ & Hstep).
  unfold ledger_step in Hstep.
  rewrite (verdict_write w f d df (fs st) (dirs st) Hd Hmk Hp Hdf Hne), Hw in Hfs, Hstep.
  destruct Hstep as (Ho & Hs & _ & _ & Hl). auto.
Qed.

Lemma converts_when_possible_witness :
  let f := ["sourceRoot"; "reports"; "q1.xlsx"] in
  let d := ["outputRoot"; "reports"; "q1.csv"] in
  snd (process_file w_scenario f fresh) = Ok (Succeeded 2) /\
  fs (fst (process_file w_scenario f fresh))
  = <[d := [["id"; "name"]; ["1"; "ann"]; ["2"; "bob"]]]> (fs fresh) /\
  succeeded (fst (process_file w_scenario f fresh)) = 1 /\
  failed_files (fst (process_file w_scenario f fresh)) = [].
Proof.
  intros f d.
  assert (HD : d ∉ dirs fresh) by apply not_elem_of_empty.
  exact (converts_when_possible w_scenario f d small_table fresh
           eq_refl eq_refl eq_refl HD eq_refl eq_refl eq_refl).
Defined.

(** X3. No empty file is written: a file recorded as succeeded has at
    least one data row, and its destination holds one record more than
    that, the first being a non-empty record of labels. *)
Theorem no_empty_csv (w : World) (f : Path) (st : State) (n : nat) :
  snd (process_file w f st) = Ok (Succeeded n) ->
  1 <= n /\
  exists d labels body,
    output_path_of w f = Ok d /\
    fs (fst (process_file w f st)) !! d = Some (labels :: body) /\
    labels <> [] /\ length body = n.
Proof.
  intros H.
  destruct (process_file_outcome_inv w f st _ H) as (d & df & Hv & ->).
  destruct (process_file_spec w f st) as (Hfs & _ & _).
  rewrite Hv in Hfs. simpl in Hfs.
  destruct (verdict_write_inv w f d df _ _ Hv) as (Hd & _ & _ & _ & Hne & _).
  unfold empty in Hne.
  destruct (columns df) as [|c cs] eqn:Hc; [discriminate|].
  destruct (rows df) as [|r rs] eqn:Hr; [discriminate|].
  split; [simpl; lia|].
  exists d, (map render_label (c :: cs)), (r :: rs).
  split; [exact Hd|]. split.
  - rewrite Hfs. unfold csv_of. rewrite Hc, Hr. apply lookup_insert_eq.
  - split; [discriminate | reflexivity].
Qed.

Lemma no_empty_csv_witness :
  let f := ["sourceRoot"; "reports"; "q1.xlsx"] in
  snd (process_file w_scenario f fresh) = Ok (Succeeded 2) /\
  1 <= 2 /\
  exists d labels body,
    output_path_of w_scenario f = Ok d /\
    fs (fst (process_file w_scenario f fresh)) !! d = Some (labels :: body) /\
    labels <> [] /\ length body = 2.
Proof.
  intros f.
  assert (H : snd (process_file w_scenario f fresh) = Ok (Succeeded 2))
    by (vm_compute; reflexivity).
  split; [exact H|].
  exact (no_empty_csv w_scenario f fresh 2 H).
Defined.

(** X4. A write that fails is a failure of the file: when nothing is at
    the destination, neither a file nor a directory, and [to_csv]
    raises, the file is recorded as failed with the message of the
    write as reason, [succeeded] stays as it was and the failure log
    gains the record timestamp TAB source path TAB message NEWLINE. *)
Theorem failed_write_recorded (w : World) (f d : Path) (df : DataFrame)
    (msg : string) (lo : option Csv) (st : State) :
  output_path_of w f = Ok d ->
  mkdir w (PyPath.parent d) = Ok tt ->
  fs st !! d = None -> d ∉ dirs st ->
  snd (read_first_sheet w f st) = Ok (Some df) ->
  empty df = false ->
  write_file w d (csv_of df) = WriteError msg lo ->
  ~ raises (append_failed w f msg) ->
  let st' := fst (process_file w f st) in
  snd (process_file w f st) = Ok (Failed msg) /\
  succeeded st' = succeeded st /\ failed st' = S (failed st) /\
  failed_files st'
  = failed_files st ++
    [pretty (clock st) +:+
     String "009" (PyPath.str f +:+ String "009" (msg +:+ String "010" EmptyString))].
Proof.
  intros Hd Hmk Hm HD Hread Hne Hw Happ st'.
  rewrite read_first_sheet_value in Hread. injection Hread as Hdf.
  assert (Hp : present (fs st) (dirs st) d = false) by (apply present_false; auto).
  destruct (process_file_spec w f st) as (_ & _ & Hstep).
  unfold ledger_step in Hstep.
  rewrite (verdict_write w f d df (fs st) (dirs st) Hd Hmk Hp Hdf Hne), Hw in Hstep.
  destruct Hstep as (Hs & Hf & _ & Hlog).
  destruct (append_failed w f msg); [|now destruct Happ].
  destruct Hlog as [Ho Hl]. auto.
Qed.

Lemma failed_write_recorded_witness :
  let f := ["sourceRoot"; "reports"; "q1.xlsx"] in
  let st' := fst (process_file w_write_fails f fresh) in
  snd (process_file w_write_fails f fresh) = Ok (Failed "No space left on device") /\
  succeeded st' = 0 /\ failed st' = 1 /\
  failed_files st'
  = [String "0" (String "009"
       ("sourceRoot/reports/q1.xlsx" +:+
        String "009" ("No space left on device" +:+ String "010" EmptyString)))].
Proof.
  intros f.
  assert (HD : ["outputRoot"; "reports"; "q1.csv"] ∉ dirs fresh)
    by apply not_elem_of_empty.
  exact (failed_write_recorded w_write_fails f ["outputRoot"; "reports"; "q1.csv"]
           small_table "No space left on device" None fresh
           eq_refl eq_refl eq_refl HD eq_refl eq_refl eq_refl (fun x => x)).
Defined.

(** ** The order of the checks (lines 60-68) *)

Lemma verdict_mkdir_raises (w : World) (f d : Path) (msg : string)
    (m : gmap Path Csv) (D : gset Path) :
  output_path_of w f = Ok d -> mkdir w (PyPath.parent d) = Raise msg ->
  verdict w f m D = VFail msg None.
Proof. intros Hd Hmk. unfold verdict. now rewrite Hd, Hmk. Qed.

(** X5. The directory is made before the destination is looked for: when
    [mkdir] raises, the file is recorded as failed with the message of
    [mkdir], also when a file is already at the destination; the output
    files are left as they were. *)
Theorem mkdir_failure_precedes_skip (w : World) (f d : Path) (msg : string) (st : State) :
  output_path_of w f = Ok d ->
  mkdir w (PyPath.parent d) = Raise msg ->
  ~ raises (append_failed w f msg) ->
  let st' := fst (process_file w f st) in
  snd (process_file w f st) = Ok (Failed msg) /\
  skipped st' = skipped st /\
  fs st' = fs st /\
  failed_files st' = failed_files st ++ [failure_line (clock st) f msg].
Proof.
  intros Hd Hmk Happ st'.
  destruct (process_file_spec w f st) as (Hfs & _ & Hstep).
  unfold ledger_step in Hstep.
  rewrite (verdict_mkdir_raises w f d msg (fs st) (dirs st) Hd Hmk) in Hfs, Hstep.
  destruct Hstep as (_ & _ & Hk & Hlog).
  destruct (append_failed w f msg); [|now destruct Happ].
  destruct Hlog as [Ho Hl]. auto.
Qed.

Lemma mkdir_failure_precedes_skip_witness :
  let f := ["sourceRoot"; "reports"; "q1.xlsx"] in
  let st' := fst (process_file w_mkdir_denied f seeded) in
  is_Some (fs seeded !! ["outputRoot"; "reports"; "q1.csv"]) /\
  snd (process_file w_mkdir_denied f seeded) = Ok (Failed "Permission denied") /\
  skipped st' = 2 /\
  fs st' = fs seeded /\
  failed_files st' = ["earlier record"; failure_line 40 f "Permission denied"].
Proof.
  intros f. split; [eexists; reflexivity|].
  exact (mkdir_failure_precedes_skip w_mkdir_denied f
           ["outputRoot"; "reports"; "q1.csv"] "Permission denied" seeded
           eq_refl eq_refl (fun x => x)).
Defined.

Lemma output_path_of_with_pandas (w : World)
    (reader : Path -> option Engine -> option nat -> Exc DataFrame)
    (writer : Path -> Csv -> WriteResult) (f : Path) :
  output_path_of (with_pandas w reader writer) f = output_path_of w f.
Proof. reflexivity. Qed.

(** X6. A skipped file is neither read nor written: when a file is at
    the destination and its directory is made, the iteration comes out
    the same whatever the decoders and the writer would do.  It counts
    the file as skipped and leaves the output files and the failure log
    as they were. *)
Theorem skip_reads_nothing (w : World) (f d : Path) (st : State)
    (reader : Path -> option Engine -> option nat -> Exc DataFrame)
    (writer : Path -> Csv -> WriteResult) :
  output_path_of w f = Ok d ->
  mkdir w (PyPath.parent d) = Ok tt ->
  is_Some (fs st !! d) ->
  process_file (with_pandas w reader writer) f st = process_file w f st /\
  snd (process_file w f st) = Ok Skipped /\
  fs (fst (process_file w f st)) = fs st /\
  failed_files (fst (process_file w f st)) = failed_files st.
Proof.
  intros Hd Hmk Hc.
  assert (Hp : forall D, present (fs st) D d = true)
    by (intros D; apply present_true; now left).
  split.
  - unfold_script. simpl.
    rewrite output_path_of_with_pandas, Hd. simpl. rewrite Hmk. simpl.
    now rewrite Hp.
  - destruct (process_file_spec w f st) as (Hfs & _ & Hstep).
    unfold ledger_step in Hstep.
    rewrite (verdict_skip w f d (fs st) (dirs st) Hd Hmk (Hp _)) in Hfs, Hstep.
    destruct Hstep as (Ho & _ & _ & _ & Hl). auto.
Qed.

Lemma skip_reads_nothing_witness :
  let f := ["sourceRoot"; "reports"; "q1.xlsx"] in
  is_Some (fs seeded !! ["outputRoot"; "reports"; "q1.csv"]) /\
  process_file (with_pandas w_scenario (fun _ _ _ => Raise "not consulted")
                  (fun _ _ => WriteError "not consulted" None)) f seeded
  = process_file w_scenario f seeded /\
  snd (process_file w_scenario f seeded) = Ok Skipped /\
  fs (fst (process_file w_scenario f seeded)) = fs seeded /\
  failed_files (fst (process_file w_scenario f seeded)) = failed_files seeded.
Proof.
  intros f.
  assert (H : is_Some (fs seeded !! ["outputRoot"; "reports"; "q1.csv"]))
    by (eexists; reflexivity).
  split; [exact H|].
  exact (skip_reads_nothing w_scenario f ["outputRoot"; "reports"; "q1.csv"] seeded
           (fun _ _ _ => Raise "not consulted")
           (fun _ _ => WriteError "not consulted" None) eq_refl eq_refl H).
Defined.

(** ** More on the path mapper (lines 60-61) *)

Lemma rfind_free (t : string) (c : ascii) :
  PyStr.free_of c t = true -> PyStr.rfind t c = None.
Proof.
  induction t as [|a t IH]; simpl; [reflexivity|].
  intros H. apply andb_true_iff in H as [Ha Ht]. rewrite (IH Ht).
  destruct (Ascii.eqb a c); [discriminate | reflexivity].
Qed.

(** X7. A name whose only dot is its first character has no suffix for
    [stem]: an entry named [.xlsx] keeps its whole name and is mapped to
    [.xlsx.csv] in the mirrored directory. *)
Theorem dot_file_keeps_name (w : World) (dirs : Path) (t : string) :
  PyStr.free_of "." t = true ->
  output_path_of w (SOURCE_FOLDER w // dirs // [String "." t])
  = Ok (OUTPUT_FOLDER w // dirs // [String "." t +:+ ".csv"]).
Proof.
  intros Hfree. rewrite output_path_of_rel. do 3 f_equal.
  unfold PyPath.stem, PyPath.name. simpl.
  rewrite (rfind_free t "." Hfree). simpl. reflexivity.
Qed.

Lemma dot_file_keeps_name_witness :
  PyStr.free_of "." "xlsx" = true /\
  In ["sourceRoot"; "a"; ".xlsx"]
     (discover (quiet_world true [["sourceRoot"; "a"; ".xlsx"]] scenario_reader)) /\
  output_path_of w_scenario ["sourceRoot"; "a"; ".xlsx"]
  = Ok ["outputRoot"; "a"; ".xlsx.csv"].
Proof.
  split; [reflexivity|]. split; [now left|].
  exact (dot_file_keeps_name w_scenario ["a"] "xlsx" eq_refl).
Defined.

Lemma lower_app (s t : string) :
  PyStr.lower (s +:+ t) = PyStr.lower s +:+ PyStr.lower t.
Proof. induction s as [|a s IH]; simpl; [reflexivity | now rewrite IH]. Qed.

Lemma endswith_app (s t : string) : PyStr.endswith (s +:+ t) t = true.
Proof.
  induction s as [|a s IH]; simpl app.
  - apply Discovery.endswith_refl.
  - change (String a s +:+ t) with (String a (s +:+ t)).
    rewrite Discovery.endswith_cons, IH. apply orb_true_r.
Qed.

Lemma csv_name_not_matched (w : World) (s ext : string) :
  In ext excel_extensions -> glob_match w ext (s +:+ ".csv") = false.
Proof.
  intros He. unfold glob_match. rewrite (Discovery.normcase_extension w ext He).
  destruct (PyStr.endswith (normcase w (s +:+ ".csv")) ext) eqn:Hm; [|reflexivity].
  assert (Hcsv : PyStr.endswith (normcase w (s +:+ ".csv")) ".csv" = true).
  { unfold normcase. destruct (case_sensitive w).
    - apply endswith_app.
    - rewrite lower_app. apply (endswith_app (PyStr.lower s) ".csv"). }
  destruct (Discovery.endswith_both _ _ _ Hm Hcsv) as [H|H]; revert H;
    simpl in He; destruct He as [<-|[<-|[<-|[<-|[]]]]]; vm_compute; discriminate.
Qed.

Lemma output_path_of_name (w : World) (f d : Path) :
  output_path_of w f = Ok d ->
  exists rel, PyPath.relative_to f (SOURCE_FOLDER w) = Ok rel /\
              d = OUTPUT_FOLDER w // PyPath.parent rel // [PyPath.stem f +:+ ".csv"].
Proof.
  unfold output_path_of.
  destruct (PyPath.relative_to f (SOURCE_FOLDER w)) as [rel|e]; [|discriminate].
  intros [= <-]. eauto.
Qed.

(** X8. What the script writes it never takes for a spreadsheet: the
    destination of a file is not among the discovered files, under
    either casing rule, also when the output folder lies inside the
    source folder and the listing shows it. *)
Theorem destination_not_rediscovered (w : World) (f d : Path) :
  output_path_of w f = Ok d -> ~ In d (discover w).
Proof.
  intros Hd Hin.
  destruct (output_path_of_name w f d Hd) as (rel & _ & ->).
  apply Discovery.in_discover in Hin as (_ & ext & He & Hm).
  unfold PyPath.join in Hm. rewrite PathFacts.name_last in Hm.
  rewrite (csv_name_not_matched w _ ext He) in Hm. discriminate.
Qed.

Lemma destination_not_rediscovered_witness :
  let w := quiet_world false
             [["sourceRoot"; "a.xls"]; ["sourceRoot"; "a.csv"]; ["sourceRoot"; "a.CSV"]]
             scenario_reader in
  output_path_of w ["sourceRoot"; "a.xls"] = Ok ["outputRoot"; "a.csv"] /\
  discover w = [["sourceRoot"; "a.xls"]] /\
  ~ In ["outputRoot"; "a.csv"] (discover w).
Proof.
  intros w. split; [reflexivity|]. split; [reflexivity|].
  exact (destination_not_rediscovered w ["sourceRoot"; "a.xls"]
           ["outputRoot"; "a.csv"] eq_refl).
Defined.

(** ** What a run creates *)

Lemma verdict_leftover_path (w : World) (f d : Path) (e : string) (c : Csv)
    (m : gmap Path Csv) (D : gset Path) :
  verdict w f m D = VFail e (Some (d, c)) -> output_path_of w f = Ok d.
Proof.
  unfold verdict.
  destruct (output_path_of w f) as [d'|e0]; [|discriminate].
  destruct (mkdir w (PyPath.parent d')) as [[]|e0]; [|discriminate].
  destruct (present m D d'); [discriminate|].
  destruct (read_df w f) as [df'|]; [|discriminate].
  destruct (empty df'); simpl; [discriminate|].
  destruct (write_file w d' (csv_of df')) as [|msg [c'|]]; simpl; try discriminate.
  now intros [= _ <- _].
Qed.

Lemma process_file_creates (w : World) (f d : Path) (st : State) :
  fs st !! d = None ->
  is_Some (fs (fst (process_file w f st)) !! d) ->
  output_path_of w f = Ok d.
Proof.
  intros Hnone Hsome.
  destruct (process_file_spec w f st) as (Hfs & _ & _). rewrite Hfs in Hsome.
  destruct (verdict w f (fs st) (dirs st)) as [d'|d' df|e [[d' c]|]] eqn:Hv; simpl in Hsome.
  - rewrite Hnone in Hsome. now destruct Hsome.
  - destruct (decide (d' = d)) as [->|Hne].
    + now destruct (verdict_write_inv w f d df _ _ Hv) as (Hd & _).
    + rewrite lookup_insert_ne in Hsome by exact Hne.
      rewrite Hnone in Hsome. now destruct Hsome.
  - destruct (decide (d' = d)) as [->|Hne].
    + exact (verdict_leftover_path w f d e c _ _ Hv).
    + rewrite lookup_insert_ne in Hsome by exact Hne.
      rewrite Hnone in Hsome. now destruct Hsome.
  - rewrite Hnone in Hsome. now destruct Hsome.
Qed.

(** X9. A run creates files only at the destinations of the files it
    processes: a path with no file before the loop and a file after it,
    however the loop ends, is the destination of one of the files,
    hence lies below the output folder and has a name ending in [.csv]. *)
Theorem only_destinations_created (w : World) (files : list Path) (st : State)
    (d : Path) :
  fs st !! d = None ->
  is_Some (fs (fst (process_files w files st)) !! d) ->
  exists f rel,
    In f files /\ output_path_of w f = Ok d /\
    PyPath.relative_to f (SOURCE_FOLDER w) = Ok rel /\
    d = OUTPUT_FOLDER w // PyPath.parent rel // [PyPath.stem f +:+ ".csv"].
Proof.
  revert st. induction files as [|f0 rest IH]; intros st Hnone Hsome.
  - simpl in Hsome. rewrite Hnone in Hsome. now destruct Hsome.
  - rewrite process_files_cons in Hsome.
    assert (Hcase : is_Some (fs (fst (process_file w f0 st)) !! d) \/
                    (fs (fst (process_file w f0 st)) !! d = None /\
                     is_Some (fs (fst (process_files w rest (fst (process_file w f0 st)))) !! d))).
    { destruct (fs (fst (process_file w f0 st)) !! d) eqn:Hd1; [left; eauto|].
      right. split; [reflexivity|].
      destruct (process_file w f0 st) as [st1 [o|e]]; simpl in *.
      - now destruct (process_files w rest st1) as [st2 [os|e]].
      - rewrite Hd1 in Hsome. now destruct Hsome. }
    destruct Hcase as [H1|[Hn1 H2]].
    + pose proof (process_file_creates w f0 d st Hnone H1) as Hd.
      destruct (output_path_of_name w f0 d Hd) as (rel & Hrel & Heq).
      exists f0, rel. split; [now left | auto].
    + destruct (IH _ Hn1 H2) as (f & rel & Hin & Hrest).
      exists f, rel. split; [now right | exact Hrest].
Qed.

Lemma only_destinations_created_witness :
  let d := ["outputRoot"; "reports"; "q1.csv"] in
  fs fresh !! d = None /\
  is_Some (fs (fst (process_files w_scenario (discover w_scenario) fresh)) !! d) /\
  exists f rel,
    In f (discover w_scenario) /\ output_path_of w_scenario f = Ok d /\
    PyPath.relative_to f (SOURCE_FOLDER w_scenario) = Ok rel /\
    d = OUTPUT_FOLDER w_scenario // PyPath.parent rel // [PyPath.stem f +:+ ".csv"].
Proof.
  intros d.
  assert (H1 : fs fresh !! d = None) by reflexivity.
  assert (H2 : is_Some (fs (fst (process_files w_scenario (discover w_scenario) fresh)) !! d))
    by (eexists; vm_compute; reflexivity).
  split; [exact H1|]. split; [exact H2|].
  exact (only_destinations_created w_scenario (discover w_scenario) fresh d H1 H2).
Defined.

(** ** The failure log over a run (lines 106-112) *)

Lemma process_file_failure_log (w : World) (f : Path) (st : State) :
  let st' := fst (process_file w f st) in
  exists lines,
    failed_files st' = failed_files st ++ lines /\
    failed st + length lines <= failed st' /\
    forall o, snd (process_file w f st) = Ok o ->
              length lines = (if is_failed o then 1 else 0) /\
              failed st' = failed st + length lines.
Proof.
  destruct (process_file_spec w f st) as (_ & _ & Hstep).
  unfold ledger_step in Hstep.
  destruct (verdict w f (fs st) (dirs st)) as [d|d df|e lo].
  - destruct Hstep as (Ho & _ & Hf & _ & Hl). exists []. simpl.
    rewrite Hl, Hf, Ho, app_nil_r. repeat split; try lia; injection H as <-; simpl; lia.
  - destruct Hstep as (Ho & _ & Hf & _ & Hl). exists []. simpl.
    rewrite Hl, Hf, Ho, app_nil_r. repeat split; try lia; injection H as <-; simpl; lia.
  - destruct Hstep as (_ & Hf & _ & Happ).
    destruct (append_failed w f e).
    + destruct Happ as [Ho Hl]. eexists. split; [exact Hl|]. simpl.
      rewrite Hf, Ho. repeat split; try lia; injection H as <-; simpl; lia.
    + destruct Happ as [Ho Hl]. exists []. simpl.
      rewrite Hl, Hf, Ho, app_nil_r. repeat split; try lia; discriminate.
Qed.

(** X10. The failure log is only appended to, and a loop that ends has
    added one record for each file it recorded as failed: the number of
    new records is the number of failed outcomes and the increase of
    [failed].  If the loop is left by an exception the earlier records
    are still there. *)
Theorem failure_log_matches_failed (w : World) (files : list Path) (st : State) :
  let st' := fst (process_files w files st) in
  exists lines,
    failed_files st' = failed_files st ++ lines /\
    failed st + length lines <= failed st' /\
    forall outs, snd (process_files w files st) = Ok outs ->
                 length lines = tally is_failed outs /\
                 failed st' = failed st + length lines.
Proof.
  revert st. induction files as [|f rest IH]; intros st; cbv zeta.
  - exists []. simpl. rewrite app_nil_r.
    split; [reflexivity|]. split; [lia|].
    intros outs [= <-]. unfold tally. simpl. lia.
  - rewrite process_files_cons.
    destruct (process_file_failure_log w f st) as (l1 & Hl1 & Hle1 & Hok1).
    destruct (process_file w f st) as [st1 [o|e]]; simpl in *.
    + destruct (IH st1) as (l2 & Hl2 & Hle2 & Hok2).
      destruct (Hok1 o eq_refl) as [Hlen1 Hf1].
      destruct (process_files w rest st1) as [st2 [os|e]]; simpl in *.
      * exists (l1 ++ l2). rewrite Hl2, Hl1, length_app, <- app_assoc.
        split; [reflexivity|]. split; [lia|].
        intros outs [= <-]. destruct (Hok2 os eq_refl) as [Hlen2 Hf2].
        unfold tally in *. simpl. destruct (is_failed o); simpl; lia.
      * exists (l1 ++ l2). rewrite Hl2, Hl1, length_app, <- app_assoc.
        split; [reflexivity|]. split; [lia | discriminate].
    + exists l1. split; [exact Hl1|]. split; [exact Hle1 | discriminate].
Qed.

Lemma failure_log_matches_failed_witness :
  let st' := fst (process_files w_scenario (discover w_scenario) seeded) in
  snd (process_files w_scenario (discover w_scenario) seeded)
  = Ok [Failed NoData; Skipped] /\
  exists lines,
    failed_files st' = "earlier record"%string :: lines /\
    length lines = 1 /\ failed st' = 2 + length lines.
Proof.
  intros st'.
  assert (Hrun : snd (process_files w_scenario (discover w_scenario) seeded)
                 = Ok [Failed NoData; Skipped]) by (vm_compute; reflexivity).
  split; [exact Hrun|].
  destruct (failure_log_matches_failed w_scenario (discover w_scenario) seeded)
    as (lines & Hl & _ & Hok).
  exists lines. split; [exact Hl|]. exact (Hok _ Hrun).
Defined.

(** ** What a run depends on *)

Lemma process_file_fs_only (w : World) (f : Path) (st st2 : State) :
  fs st = fs st2 -> dirs st = dirs st2 ->
  snd (process_file w f st) = snd (process_file w f st2) /\
  fs (fst (process_file w f st)) = fs (fst (process_file w f st2)) /\
  dirs (fst (process_file w f st)) = dirs (fst (process_file w f st2)).
Proof.
  intros Heq HD.
  destruct (process_file_spec w f st) as (Hfs & _ & Hstep).
  destruct (process_file_spec w f st2) as (Hfs2 & _ & Hstep2).
  unfold ledger_step in Hstep, Hstep2. rewrite <- Heq, <- HD in Hfs2, Hstep2.
  split; [|split; [congruence | rewrite !process_file_dirs; congruence]].
  destruct (verdict w f (fs st) (dirs st)) as [d|d df|e lo].
  - destruct Hstep as [-> _], Hstep2 as [-> _]. reflexivity.
  - destruct Hstep as [-> _], Hstep2 as [-> _]. reflexivity.
  - destruct Hstep as (_ & _ & _ & H1), Hstep2 as (_ & _ & _ & H2).
    destruct (append_failed w f e); destruct H1 as [-> _], H2 as [-> _]; reflexivity.
Qed.

Lemma process_files_fs_only (w : World) (files : list Path) (st st2 : State) :
  fs st = fs st2 -> dirs st = dirs st2 ->
  snd (process_files w files st) = snd (process_files w files st2) /\
  fs (fst (process_files w files st)) = fs (fst (process_files w files st2)) /\
  dirs (fst (process_files w files st)) = dirs (fst (process_files w files st2)).
Proof.
  revert st st2. induction files as [|f rest IH]; intros st st2 Heq HD.
  - simpl. auto.
  - rewrite !process_files_cons.
    destruct (process_file_fs_only w f st st2 Heq HD) as (Hr & Hf & Hd).
    destruct (process_file w f st) as [st1 r1], (process_file w f st2) as [st1' r1'].
    simpl in Hr, Hf, Hd. subst r1'. destruct r1 as [o|e]; [|simpl; auto].
    destruct (IH st1 st1' Hf Hd) as (Hr2 & Hf2 & Hd2).
    destruct (process_files w rest st1) as [sa ra], (process_files w rest st1') as [sb rb].
    simpl in Hr2, Hf2, Hd2. subst rb. destruct ra; simpl; auto.
Qed.

Lemma process_files_total_fs_only (w : World) (files : list Path) (st st2 : State) :
  fs st = fs st2 -> dirs st = dirs st2 -> total st = total st2 ->
  total (fst (process_files w files st)) = total (fst (process_files w files st2)).
Proof.
  revert st st2. induction files as [|f rest IH]; intros st st2 Hfs HD Ht; [exact Ht|].
  rewrite !process_files_cons.
  destruct (process_file_recorded w f st) as [Hta _].
  destruct (process_file_recorded w f st2) as [Htb _].
  destruct (process_file_fs_only w f st st2 Hfs HD) as (Hr1 & Hf1 & Hd1).
  destruct (process_file w f st) as [a1 ra], (process_file w f st2) as [b1 rb].
  simpl in *. subst rb.
  assert (Hab : total a1 = total b1) by lia.
  destruct ra as [o|e]; [|exact Hab].
  specialize (IH a1 b1 Hf1 Hd1 Hab).
  destruct (process_files_fs_only w rest a1 b1 Hf1 Hd1) as (Hr2 & _).
  destruct (process_files w rest a1) as [a2 ra2], (process_files w rest b1) as [b2 rb2].
  simpl in *. subst rb2. now destruct ra2.
Qed.

(** X11. What a run returns, the output files and directories it leaves
    and the count of files processed depend on the world as the run
    finds it and on the files and directories present below the output
    folder, and on nothing else of the state: counters, clock, failure
    log and run log left by earlier runs have no influence. *)
Theorem run_depends_on_files_only (w : World) (st st2 : State) :
  fs st = fs st2 -> dirs st = dirs st2 ->
  snd (convert_excel_to_csv w st) = snd (convert_excel_to_csv w st2) /\
  fs (fst (convert_excel_to_csv w st)) = fs (fst (convert_excel_to_csv w st2)) /\
  dirs (fst (convert_excel_to_csv w st)) = dirs (fst (convert_excel_to_csv w st2)) /\
  total (fst (convert_excel_to_csv w st)) = total (fst (convert_excel_to_csv w st2)).
Proof.
  intros Heq HD.
  destruct (convert_unfold w st) as (Hs & Ht & _ & _ & _ & Hf & _).
  destruct (convert_unfold w st2) as (Hs2 & Ht2 & _ & _ & _ & Hf2 & _).
  rewrite Hs, Hs2, Hf, Hf2, Ht, Ht2, !convert_dirs.
  split; [|split; [|split]].
  - apply process_files_fs_only; [exact Heq | exact HD].
  - apply process_files_fs_only; [exact Heq | exact HD].
  - apply process_files_fs_only; [exact Heq | exact HD].
  - apply process_files_total_fs_only; [exact Heq | exact HD | reflexivity].
Qed.

Lemma run_depends_on_files_only_witness :
  let later := set_counters 9 4 4 1 (set_failed_files ["earlier record"] fresh) in
  fs fresh = fs later /\ dirs fresh = dirs later /\
  snd (convert_excel_to_csv w_scenario later) = Ok [Failed NoData; Succeeded 2] /\
  total (fst (convert_excel_to_csv w_scenario later)) = 2.
Proof.
  intros later.
  assert (H : fs fresh = fs later) by reflexivity.
  assert (HD : dirs fresh = dirs later) by reflexivity.
  destruct (run_depends_on_files_only w_scenario fresh later H HD) as (Hr & _ & _ & Ht).
  split; [exact H|]. split; [exact HD|]. split.
  - exact (eq_trans (eq_sym Hr) eq_refl).
  - exact (eq_trans (eq_sym Ht) eq_refl).
Defined.

Lemma dirs_after_absorb (w : World) (f : Path) (D D2 : gset Path) :
  dirs_after w f D ⊆ D2 -> dirs_after w f D2 = D2.
Proof.
  unfold dirs_after. destruct (output_path_of w f) as [d|e]; [|reflexivity].
  destruct (mkdir w (PyPath.parent d)); [|reflexivity].
  intros H. apply set_eq. intros x. rewrite elem_of_union. split; [|now left].
  intros [Hx|Hx]; [exact Hx|]. apply H, elem_of_union. now right.
Qed.

(** A loop over files that were all processed before, with what they
    left still there, changes neither files nor directories. *)
Lemma process_files_settled (w : World) (files : list Path) (s : State) :
  (forall f, In f files ->
     exists s1 o1, snd (process_file w f s1) = Ok o1 /\
                   fs (fst (process_file w f s1)) ⊆ fs s /\
                   dirs (fst (process_file w f s1)) ⊆ dirs s) ->
  (exists outs, snd (process_files w files s) = Ok outs) /\
  fs (fst (process_files w files s)) = fs s /\
  dirs (fst (process_files w files s)) = dirs s.
Proof.
  revert s. induction files as [|f rest IH]; intros s Hold.
  - simpl. eauto.
  - rewrite process_files_cons.
    destruct (Hold f (or_introl eq_refl)) as (s1 & o1 & Ho1 & Hf1 & Hd1).
    destruct (process_file_again w f s1 s o1 Ho1 Hf1 Hd1) as (o2 & Ho2 & Hfs & _).
    assert (Hdirs : dirs (fst (process_file w f s)) = dirs s).
    { rewrite process_file_dirs. apply (dirs_after_absorb w f (dirs s1)).
      now rewrite <- process_file_dirs. }
    destruct (process_file w f s) as [sa r]; simpl in *. subst r.
    destruct (IH sa) as ([os Hos] & Hfs2 & Hd2).
    { intros f' Hf'. destruct (Hold f' (or_intror Hf')) as (s1' & o1' & H).
      exists s1', o1'. now rewrite Hfs, Hdirs. }
    destruct (process_files w rest sa) as [sb rb]; simpl in *. subst rb.
    simpl. split; [eauto|]. split; congruence.
Qed.

(** X12. Runs settle, as long as the scans find the same files: when a
    run has ended and the next two runs discover the files it
    discovered, the third run returns the outcomes of the second and
    both leave the output files and directories as they are. *)
Theorem third_run_repeats_second (w : World) (st : State) (outs1 : list Outcome)
    (entries2 entries3 : list Path) :
  snd (convert_excel_to_csv w st) = Ok outs1 ->
  discover (with_tree w entries2) = discover w ->
  discover (with_tree w entries3) = discover w ->
  let st1 := fst (convert_excel_to_csv w st) in
  let st2 := fst (convert_excel_to_csv (with_tree w entries2) st1) in
  snd (convert_excel_to_csv (with_tree w entries3) st2)
  = snd (convert_excel_to_csv (with_tree w entries2) st1) /\
  fs (fst (convert_excel_to_csv (with_tree w entries3) st2)) = fs st2 /\
  dirs (fst (convert_excel_to_csv (with_tree w entries3) st2)) = dirs st2 /\
  fs st2 = fs st1 /\ dirs st2 = dirs st1.
Proof.
  intros Hrun H2 H3 st1 st2.
  destruct (convert_unfold w st) as (Hsnd & _ & _ & _ & _ & Hfs & _).
  pose proof (convert_dirs w st) as Hdirs.
  rewrite Hsnd in Hrun.
  pose proof (process_files_trace w (discover w) _ outs1 Hrun) as Htrace.
  destruct (process_files_tally w (discover w) _ outs1 Hrun) as (Hlen & _).
  fold st1 in Hfs, Hdirs. rewrite <- Hfs, <- Hdirs in Htrace.
  assert (Hold : forall s, fs s = fs st1 -> dirs s = dirs st1 ->
            forall f, In f (discover w) ->
              exists s1 o1, snd (process_file w f s1) = Ok o1 /\
                            fs (fst (process_file w f s1)) ⊆ fs s /\
                            dirs (fst (process_file w f s1)) ⊆ dirs s).
  { intros s Hs Hd f Hf.
    destruct (combine_covers (discover w) outs1 f Hlen Hf) as [o1 Ho1].
    destruct (Htrace f o1 Ho1) as (s1 & H). exists s1, o1. now rewrite Hs, Hd. }
  assert (Hstable : forall entries s, discover (with_tree w entries) = discover w ->
            fs s = fs st1 -> dirs s = dirs st1 ->
            fs (fst (convert_excel_to_csv (with_tree w entries) s)) = fs st1 /\
            dirs (fst (convert_excel_to_csv (with_tree w entries) s)) = dirs st1).
  { intros entries s He Hs Hd.
    destruct (convert_unfold (with_tree w entries) s) as (_ & _ & _ & _ & _ & Hf & _).
    rewrite Hf, convert_dirs, !process_files_with_tree, He.
    match goal with
    | |- fs (fst (process_files w (discover w) ?s0)) = _ /\ _ =>
        destruct (process_files_settled w (discover w) s0 (Hold s0 Hs Hd))
          as (_ & Hf' & Hd')
    end.
    rewrite Hf', Hd'. auto. }
  destruct (Hstable entries2 st1 H2 eq_refl eq_refl) as [Hfs2 Hd2].
  fold st2 in Hfs2, Hd2.
  destruct (Hstable entries3 st2 H3 Hfs2 Hd2) as [Hfs3 Hd3].
  split; [|split; [congruence | split; [congruence | auto]]].
  destruct (convert_unfold (with_tree w entries2) st1) as (Hs2 & _).
  destruct (convert_unfold (with_tree w entries3) st2) as (Hs3 & _).
  rewrite Hs2, Hs3, !process_files_with_tree, H2, H3.
  apply process_files_fs_only; simpl; assumption.
Qed.

Lemma third_run_repeats_second_witness :
  let st1 := fst (convert_excel_to_csv w_scenario fresh) in
  let st2 := fst (convert_excel_to_csv (with_tree w_scenario scenario_tree) st1) in
  snd (convert_excel_to_csv w_scenario fresh) = Ok [Failed NoData; Succeeded 2] /\
  snd (convert_excel_to_csv (with_tree w_scenario scenario_tree) st1)
  = Ok [Failed NoData; Skipped] /\
  snd (convert_excel_to_csv (with_tree w_scenario scenario_tree) st2)
  = snd (convert_excel_to_csv (with_tree w_scenario scenario_tree) st1) /\
  fs (fst (convert_excel_to_csv (with_tree w_scenario scenario_tree) st2)) = fs st2.
Proof.
  intros st1 st2.
  assert (Hrun : snd (convert_excel_to_csv w_scenario fresh)
                 = Ok [Failed NoData; Succeeded 2]) by (vm_compute; reflexivity).
  destruct (third_run_repeats_second w_scenario fresh _ scenario_tree scenario_tree
              Hrun eq_refl eq_refl) as (H1 & H2 & _).
  split; [exact Hrun|]. split; [vm_compute; reflexivity|].
  split; [exact H1 | exact H2].
Defined.

(** ** The run log (lines 52 and 114-124) *)

Lemma process_file_log_grows (w : World) (f : Path) (st : State) :
  exists l, run_log (fst (process_file w f st)) = run_log st ++ l.
Proof.
  unfold_script. simpl.
  destruct (output_path_of w f) as [d|e]; simpl.
  2: { destruct (append_failed w f e); simpl; eexists; reflexivity. }
  destruct (mkdir w (PyPath.parent d)) as [[]|e]; simpl.
  2: { destruct (append_failed w f e); simpl; eexists; reflexivity. }
  destruct (present (fs st) _ d); simpl; [eexists; reflexivity|].
  rewrite try_engines_run. simpl.
  destruct (engines_df w f engines_to_try None) as [df|]; simpl.
  - destruct (empty df); simpl.
    + destruct (append_failed w f NoData); simpl; rewrite <- !app_assoc;
        eexists; reflexivity.
    + destruct (write_file w d (csv_of df)) as [|msg [c|]]; simpl;
        try destruct (append_failed w f msg); simpl; rewrite <- !app_assoc;
        eexists; reflexivity.
  - destruct (read_excel w f None None) as [df|msg]; simpl.
    + destruct (empty df); simpl.
      * destruct (append_failed w f NoData); simpl; rewrite <- !app_assoc;
          eexists; reflexivity.
      * destruct (write_file w d (csv_of df)) as [|msg [c|]]; simpl;
          try destruct (append_failed w f msg); simpl; rewrite <- !app_assoc;
          eexists; reflexivity.
    + destruct (append_failed w f NoData); simpl; rewrite <- !app_assoc;
        eexists; reflexivity.
Qed.

Lemma process_files_log_grows (w : World) (files : list Path) (st : State) :
  exists l, run_log (fst (process_files w files st)) = run_log st ++ l.
Proof.
  revert st. induction files as [|f rest IH]; intros st.
  - exists []. simpl. now rewrite app_nil_r.
  - rewrite process_files_cons.
    destruct (process_file_log_grows w f st) as [l1 Hl1].
    destruct (process_file w f st) as [st1 [o|e]]; simpl in *; [|eauto].
    destruct (IH st1) as [l2 Hl2].
    destruct (process_files w rest st1) as [st2 [os|e]]; simpl in *;
      exists (l1 ++ l2); now rewrite Hl2, Hl1, app_assoc.
Qed.

(** X13. The summary tells the truth: a run that ends has logged, after
    what was in the run log before, first the number of discovered
    files and last a summary whose total is that number and whose three
    other counts are the numbers of succeeded, failed and skipped
    outcomes of this run, whatever the counters were before. *)
Theorem summary_reports_tallies (w : World) (st : State) (outs : list Outcome) :
  snd (convert_excel_to_csv w st) = Ok outs ->
  exists mid,
    run_log (fst (convert_excel_to_csv w st))
    = run_log st ++ LogFound (length (discover w)) :: mid ++
      [LogSummary (length (discover w)) (tally is_succeeded outs)
         (tally is_failed outs) (tally is_skipped outs)].
Proof.
  unfold convert_excel_to_csv, logger, gets, modify, mbind, M_bind, mret, M_ret.
  simpl.
  match goal with
  | |- context [process_files w (discover w) ?s] =>
      pose proof (process_files_tally w (discover w) s) as Htally;
      destruct (process_files_log_grows w (discover w) s) as [mid Hmid];
      destruct (process_files w (discover w) s) as [st1 [os|e]]
  end; simpl in *; [|discriminate].
  intros [= <-].
  destruct (Htally os eq_refl) as (_ & Ht & Hs & Hf & Hk).
  exists mid. rewrite Hmid, Ht, Hs, Hf, Hk. simpl.
  now rewrite <- !app_assoc.
Qed.

Lemma summary_reports_tallies_witness :
  snd (convert_excel_to_csv w_scenario seeded) = Ok [Failed NoData; Skipped] /\
  exists mid,
    run_log (fst (convert_excel_to_csv w_scenario seeded))
    = LogFound 2 :: mid ++ [LogSummary 2 0 1 1].
Proof.
  assert (Hrun : snd (convert_excel_to_csv w_scenario seeded)
                 = Ok [Failed NoData; Skipped]) by (vm_compute; reflexivity).
  split; [exact Hrun|].
  exact (summary_reports_tallies w_scenario seeded _ Hrun).
Defined.

(** ** The order of processing (lines 46-55) *)

Lemma rglob_matches (w : World) (ext : string) (p : Path) :
  In p (rglob w ext) -> glob_match w ext (PyPath.name p) = true.
Proof. unfold rglob. intros H. now apply filter_In in H as [_ H]. Qed.

Lemma rglobs_match (w : World) (exts : list string) (p : Path) :
  In p (flat_map (rglob w) exts) ->
  exists ext, In ext exts /\ glob_match w ext (PyPath.name p) = true.
Proof.
  intros H. apply in_flat_map in H as (ext & He & Hp).
  exists ext. split; [exact He | now apply rglob_matches].
Qed.

Lemma lookup_In (l : list Path) (i : nat) (p : Path) : l !! i = Some p -> In p l.
Proof. intros H. apply list_elem_of_In. eapply list_elem_of_lookup_2. exact H. Qed.

Lemma lookup_string_In (l : list string) (i : nat) (s : string) :
  l !! i = Some s -> In s l.
Proof. intros H. apply list_elem_of_In. eapply list_elem_of_lookup_2. exact H. Qed.

Lemma rglobs_ordered (w : World) (exts : list string) :
  List.NoDup exts -> (forall e, In e exts -> In e excel_extensions) ->
  forall i j f1 f2 a b ea eb,
    flat_map (rglob w) exts !! i = Some f1 ->
    flat_map (rglob w) exts !! j = Some f2 ->
    exts !! a = Some ea -> glob_match w ea (PyPath.name f1) = true ->
    exts !! b = Some eb -> glob_match w eb (PyPath.name f2) = true ->
    a < b -> i < j.
Proof.
  intros Hnd. induction Hnd as [|e exts Hnotin Hnd IH];
    intros Hsub i j f1 f2 a b ea eb Hi Hj Ha Ma Hb Mb Hlt.
  - destruct a; discriminate.
  - simpl in Hi, Hj.
    assert (Hsub' : forall e', In e' exts -> In e' excel_extensions)
      by (intros e' He'; apply Hsub; now right).
    assert (Hblock : forall k p ep, (rglob w e ++ flat_map (rglob w) exts) !! k = Some p ->
              In ep exts -> glob_match w ep (PyPath.name p) = true ->
              length (rglob w e) <= k).
    { intros k p ep Hk Hep Mp.
      destruct (Nat.le_gt_cases (length (rglob w e)) k) as [Hle|Hgt]; [exact Hle|].
      exfalso. rewrite lookup_app_l in Hk by exact Hgt.
      apply lookup_In, rglob_matches in Hk.
      assert (e = ep).
      { apply (Discovery.glob_match_unique w e ep (PyPath.name p)); auto.
        apply Hsub. now left. }
      subst ep. now apply Hnotin. }
    destruct b as [|b]; [lia|]. simpl in Hb.
    pose proof (Hblock j f2 eb Hj (lookup_string_In _ _ _ Hb) Mb) as Hj'.
    destruct a as [|a]; simpl in Ha.
    + injection Ha as <-.
      destruct (Nat.le_gt_cases (length (rglob w e)) i) as [Hle|Hgt]; [|lia].
      exfalso. rewrite lookup_app_r in Hi by exact Hle.
      apply lookup_In, rglobs_match in Hi as (e' & He' & Me').
      assert (e = e').
      { apply (Discovery.glob_match_unique w e e' (PyPath.name f1)); auto.
        apply Hsub. now left. }
      subst e'. now apply Hnotin.
    + pose proof (Hblock i f1 ea Hi (lookup_string_In _ _ _ Ha) Ma) as Hi'.
      rewrite lookup_app_r in Hi, Hj by assumption.
      assert (i - length (rglob w e) < j - length (rglob w e)); [|lia].
      apply (IH Hsub' _ _ f1 f2 a b ea eb); auto. lia.
Qed.

(** X14. Files are processed extension by extension: every discovered
    file whose name matches an earlier pattern of [.xls], [.xlsx],
    [.xlsm], [.xlsb] comes before every file whose name matches a later
    one.  Of [a.xls] and [a.xlsx] in one directory, [a.xls] is thus
    processed first. *)
Theorem processed_by_extension (w : World) (i j : nat) (f1 f2 : Path) (a b : nat) :
  discover w !! i = Some f1 -> discover w !! j = Some f2 ->
  matches_at w a f1 -> matches_at w b f2 ->
  a < b -> i < j.
Proof.
  intros Hi Hj (ea & Ha & Ma) (eb & Hb & Mb) Hlt.
  apply (rglobs_ordered w excel_extensions) with (f1 := f1) (f2 := f2)
    (a := a) (b := b) (ea := ea) (eb := eb); auto.
  repeat constructor; simpl; intuition discriminate.
Qed.

Lemma processed_by_extension_witness :
  let w := quiet_world true [["sourceRoot"; "a.xlsx"]; ["sourceRoot"; "a.xls"]]
             scenario_reader in
  tree w = [["sourceRoot"; "a.xlsx"]; ["sourceRoot"; "a.xls"]] /\
  discover w !! 0 = Some ["sourceRoot"; "a.xls"] /\
  discover w !! 1 = Some ["sourceRoot"; "a.xlsx"] /\
  matches_at w 0 ["sourceRoot"; "a.xls"] /\
  matches_at w 1 ["sourceRoot"; "a.xlsx"] /\
  0 < 1.
Proof.
  intros w.
  assert (M0 : matches_at w 0 ["sourceRoot"; "a.xls"])
    by (exists ".xls"%string; split; reflexivity).
  assert (M1 : matches_at w 1 ["sourceRoot"; "a.xlsx"])
    by (exists ".xlsx"%string; split; reflexivity).
  split; [reflexivity|]. split; [reflexivity|]. split; [reflexivity|].
  split; [exact M0|]. split; [exact M1|].
  exact (processed_by_extension w 0 1 ["sourceRoot"; "a.xls"] ["sourceRoot"; "a.xlsx"]
           0 1 eq_refl eq_refl M0 M1 (le_n 1)).
Defined.

(** ** Upper-case extensions on a case-insensitive platform *)

Lemma lower_dot (t : string) :
  PyStr.lower (String "." t) = String "." (PyStr.lower t).
Proof. reflexivity. Qed.

(** X15. Where the glob ignores case, an entry whose extension is one of
    the four in any mix of cases is discovered, and its destination
    keeps the base name as it is spelled: [REPORT.XLS] is converted to
    [REPORT.csv]. *)
Theorem mixed_case_extension_converted (w : World) (dirs : Path) (base t : string) :
  case_sensitive w = false ->
  base <> EmptyString -> t <> EmptyString -> PyStr.free_of "." t = true ->
  In (String "." (PyStr.lower t)) excel_extensions ->
  In (SOURCE_FOLDER w // dirs // [base +:+ String "." t]) (tree w) ->
  In (SOURCE_FOLDER w // dirs // [base +:+ String "." t]) (discover w) /\
  output_path_of w (SOURCE_FOLDER w // dirs // [base +:+ String "." t])
  = Ok (OUTPUT_FOLDER w // dirs // [base +:+ ".csv"]).
Proof.
  intros Hcs Hbase Ht Hfree Hext Htree. split.
  - apply Discovery.in_discover. split; [exact Htree|].
    exists (String "." (PyStr.lower t)). split; [exact Hext|].
    unfold glob_match. rewrite (Discovery.normcase_extension w _ Hext).
    unfold normcase, PyPath.join. rewrite Hcs, PathFacts.name_last.
    rewrite lower_app, lower_dot. apply endswith_app.
  - rewrite output_path_of_rel. now rewrite PathFacts.stem_suffix.
Qed.

Lemma mixed_case_extension_converted_witness :
  let w := quiet_world false [["sourceRoot"; "REPORT.XLS"]] scenario_reader in
  In ["sourceRoot"; "REPORT.XLS"] (discover w) /\
  output_path_of w ["sourceRoot"; "REPORT.XLS"] = Ok ["outputRoot"; "REPORT.csv"].
Proof.
  intros w.
  apply (mixed_case_extension_converted w [] "REPORT" "XLS");
    [reflexivity | discriminate | discriminate | reflexivity
    | simpl; tauto | simpl; tauto].
Defined.
